(** * cache_check: the metadata checker of the cache target

  A shallow embedding of [caching/cache_check.cc] (the reporters, [flags],
  [guarded_stat], [clear_needs_check], [metadata_check], [check] and
  [check_with_exception_handling]) together with the constant
  [MD_BLOCK_SIZE] of [persistent-data/block.h].

  The checker is effectful C++: it writes diagnostics to [cerr], calls into
  the block layer, may throw, and re-writes the superblock.  It is embedded
  as a state-and-exception monad over a [world] that holds the text written
  to [cerr], the log of calls made into the block layer and the superblock
  held by block 0.  What the block layer answers for the path under
  examination is collected in a [device]. *)

From Stdlib Require Import ZArith List String Bool Lia.
Import ListNotations.
Local Open Scope string_scope.
Local Open Scope list_scope.
Local Open Scope Z_scope.

Set Implicit Arguments.

(** ** Error states ([base/error_state.h]) *)

Module ErrorState.

(** [enum error_state { NO_ERROR, NON_FATAL, FATAL }]. *)
Inductive error_state : Type :=
| NO_ERROR
| NON_FATAL
| FATAL.

Definition eqb (a b : error_state) : bool :=
  match a, b with
  | NO_ERROR, NO_ERROR | NON_FATAL, NON_FATAL | FATAL, FATAL => true
  | _, _ => false
  end.

(** Position in the order [NO_ERROR < NON_FATAL < FATAL]. *)
Definition level (e : error_state) : Z :=
  match e with
  | NO_ERROR => 0
  | NON_FATAL => 1
  | FATAL => 2
  end.

(** Modelled from the spec: [combine_errors] is declared in
    [base/error_state.h], which is not among the sources.  The spec gives
    it as the max over the total order [NO_ERROR < NON_FATAL < FATAL]. *)
Definition combine_errors (lhs rhs : error_state) : error_state :=
  if level lhs <? level rhs then rhs else lhs.

End ErrorState.
Export ErrorState.

Infix "==" := ErrorState.eqb (at level 70, no associativity).

(** ** Outcomes and the checker monad *)

(** A [std::exception], known by its [what()]. *)
Definition exn : Type := string.

(** How a call ends: it returns, it throws, or it has no defined behaviour
  (an empty optional dereferenced, an indeterminate value read). *)
Inductive outcome (A : Type) : Type :=
| Returned (a : A)
| Thrown (e : exn)
| Undefined.

Arguments Thrown {A} e.
Arguments Undefined {A}.

(** One piece of text streamed with [<<]. *)
Inductive frag : Type :=
| Txt (s : string)
| Num (n : Z)
| Keys (first last : option Z).

(** One line of [cerr]: its indentation and what was streamed. *)
Definition line : Type := (Z * list frag)%type.

Module BlockManager.

(** [block_manager<>::READ_ONLY] and [READ_WRITE], the modes of [open_bm]. *)
Inductive mode : Type :=
| READ_ONLY
| READ_WRITE.

End BlockManager.
Export BlockManager.

(** [uint32_t const MD_BLOCK_SIZE = 4096] ([block.h]). *)
Definition MD_BLOCK_SIZE : Z := 4096.

(** [SUPERBLOCK_LOCATION]: block 0 holds the superblock. *)
Definition SUPERBLOCK_LOCATION : Z := 0.

(** ** The superblock ([caching/superblock.h]) *)

Module Metadata.

(** Modelled from the spec: [superblock_flags] is declared in
    [caching/superblock.h], which is not among the sources.  The spec gives
    the flags as a word whose bit 0 is NEEDS_CHECK. *)
Definition superblock_flags : Type := Z.

Definition NEEDS_CHECK : Z := 0.

Definition get_flag (fl : superblock_flags) (f : Z) : bool := Z.testbit fl f.

Definition clear_flag (fl : superblock_flags) (f : Z) : superblock_flags :=
  Z.clearbit fl f.

(** The fields of [struct superblock] that the checker reads.  [hint_root]
    and [discard_root] are block addresses, tested with [!] and so absent
    when 0; [dirty_root] is an optional, dereferenced with [*]. *)
Record superblock : Type := {
  flags : superblock_flags;
  version : Z;
  mapping_root : Z;
  hint_root : Z;
  discard_root : Z;
  dirty_root : option Z;
  cache_blocks : Z;
  discard_nr_blocks : Z;
  policy_hint_size : Z
}.

Definition with_flags (sb : superblock) (fl : superblock_flags) : superblock :=
  {| flags := fl;
     version := version sb;
     mapping_root := mapping_root sb;
     hint_root := hint_root sb;
     discard_root := discard_root sb;
     dirty_root := dirty_root sb;
     cache_blocks := cache_blocks sb;
     discard_nr_blocks := discard_nr_blocks sb;
     policy_hint_size := policy_hint_size sb |}.

End Metadata.

(** ** What the walkers are given and what they report *)

(** [run<uint32_t>]: the keys a damage report covers. *)
Record run : Type := { begin_ : option Z; end_ : option Z }.

(** [mapping_array ma(tm, ref_counter, root, nr_entries)]. *)
Record mapping_array : Type := { ma_root : Z; ma_nr_entries : Z }.

(** [hint_array ha(tm, width, root, nr_entries)]. *)
Record hint_array : Type := { ha_width : Z; ha_root : Z; ha_nr_entries : Z }.

(** [persistent_data::bitset b(tm, root, nr_bits)]. *)
Record bitset : Type := { bs_root : Z; bs_nr_bits : Z }.

(** [struct mapping]: origin block and flags of one cache block. *)
Record mapping : Type := { oblock_ : Z; flags_ : Z }.

Inductive superblock_damage : Type :=
| superblock_corrupt (desc : string)
| superblock_invalid (desc : string).

Inductive mapping_array_damage : Type :=
| missing_mappings (desc : string) (keys_ : run)
| invalid_mapping (desc : string) (cblock_ : Z) (m_ : mapping).

Inductive hint_array_damage : Type :=
| missing_hints (desc : string) (keys_ : run).

(** What a [bitset_visitor] is shown: a bit, or a range of missing bits. *)
Inductive bitset_item : Type :=
| bit (index : Z) (value : bool)
| missing_bits (desc : string) (keys_ : run).

(** A walk over a structure: the reports it hands to its visitor, in order,
    and the exception that ends it, if one does. *)
Record walk (D : Type) : Type := { delivered : list D; raised : option exn }.

(** ** The world *)

(** The calls the checker makes into code outside [cache_check.cc]. *)
Inductive call : Type :=
| c_stat
| c_get_file_length
| c_check_for_xml
| c_open_bm (m : mode)
| c_get_nr_blocks
| c_check_superblock (nr_blocks : Z)
| c_read_superblock
| c_open_tm (location : Z)
| c_check_mapping_array (ma : mapping_array) (metadata_version : Z)
| c_hint_array_check (ha : hint_array)
| c_bitset (b : bitset)
| c_walk_bitset (b : bitset)
| c_write_superblock (sb : Metadata.superblock).

Record world : Type := {
  cerr : list line;
  calls : list call;
  block0 : Metadata.superblock
}.

(** What the code outside [cache_check.cc] answers for the path being
    checked.  [stat], [get_file_length], [check_for_xml], [open_bm],
    [check_superblock], [read_superblock], [open_tm], [check_mapping_array],
    [hint_array::check], the bitset and [write_superblock] are declared in
    headers that are not among the sources, so each is a parameter here:
    [inl] is the exception thrown ([dev_stat]: the text of [errno]),
    [Some e] the exception that ends a call which otherwise returns
    nothing. *)
Record device : Type := {
  dev_stat : string + Z;
  dev_get_file_length : exn + Z;
  dev_check_for_xml : exn + bool;
  dev_open_bm : mode -> option exn;
  dev_get_nr_blocks : Z;
  dev_check_superblock : Z -> walk superblock_damage;
  dev_read_superblock : option exn;
  dev_open_tm : Z -> option exn;
  dev_check_mapping_array : mapping_array -> Z -> walk mapping_array_damage;
  dev_hint_array_check : hint_array -> walk hint_array_damage;
  dev_bitset : bitset -> option exn;
  dev_walk_bitset : bitset -> walk bitset_item;
  dev_write_superblock : option exn
}.

(** The device with other contents in its bitsets: [bits] is what a walk of
    each of them reports. *)
Definition with_walk_bitset (dev : device) (bits : bitset -> walk bitset_item) : device :=
  {| dev_stat := dev_stat dev;
     dev_get_file_length := dev_get_file_length dev;
     dev_check_for_xml := dev_check_for_xml dev;
     dev_open_bm := dev_open_bm dev;
     dev_get_nr_blocks := dev_get_nr_blocks dev;
     dev_check_superblock := dev_check_superblock dev;
     dev_read_superblock := dev_read_superblock dev;
     dev_open_tm := dev_open_tm dev;
     dev_check_mapping_array := dev_check_mapping_array dev;
     dev_hint_array_check := dev_hint_array_check dev;
     dev_bitset := dev_bitset dev;
     dev_walk_bitset := bits;
     dev_write_superblock := dev_write_superblock dev |}.

(** The checker monad: state passing over the world, with an outcome. *)
Definition M (A : Type) : Type := world -> outcome A * world.

Definition ret {A : Type} (a : A) : M A := fun w => (Returned a, w).

Definition bind {A B : Type} (m : M A) (k : A -> M B) : M B :=
  fun w =>
    match m w with
    | (Returned a, w') => k a w'
    | (Thrown e, w') => (Thrown e, w')
    | (Undefined, w') => (Undefined, w')
    end.

Definition throw {A : Type} (e : exn) : M A := fun w => (Thrown e, w).

Definition undefined {A : Type} : M A := fun w => (Undefined, w).

(** [try { m } catch (std::exception &e) { handler }]. *)
Definition try_catch {A : Type} (m : M A) (handler : exn -> M A) : M A :=
  fun w =>
    match m w with
    | (Thrown e, w') => handler e w'
    | r => r
    end.

Declare Scope checker_scope.
Delimit Scope checker_scope with checker.

Notation "x <- m ;; k" := (bind m (fun x => k))
  (at level 100, m at next level, right associativity) : checker_scope.
Notation "m ;; k" := (bind m (fun _ => k))
  (at level 100, right associativity) : checker_scope.

Local Open Scope checker_scope.

Definition log (c : call) : M unit :=
  fun w => (Returned tt, {| cerr := cerr w; calls := calls w ++ [c]; block0 := block0 w |}).

Definition write_cerr (l : line) : M unit :=
  fun w => (Returned tt, {| cerr := cerr w ++ [l]; calls := calls w; block0 := block0 w |}).

(** A call that returns a value or throws. *)
Definition extern {A : Type} (c : call) (answer : exn + A) : M A :=
  log c ;;
  match answer with
  | inl e => throw e
  | inr a => ret a
  end.

(** A call that returns nothing or throws. *)
Definition extern_ (c : call) (answer : option exn) : M unit :=
  log c ;;
  match answer with
  | Some e => throw e
  | None => ret tt
  end.

(** ** Diagnostics ([base/nested_output.h]) *)

(** Modelled from the spec: [nested_output] is declared in
    [base/nested_output.h], which is not among the sources.  It writes
    messages to the stream it was made on, indented by its nesting, and writes
    nothing once disabled; the spec leaves the layout to the collaborator. *)
Record nested_output : Type := {
  step_ : Z;
  indent_ : Z;
  enabled_ : bool
}.

(** [nested_output out(cerr, step)]. *)
Definition nested_output_on_cerr (step : Z) : nested_output :=
  {| step_ := step; indent_ := 0; enabled_ := true |}.

Definition disable (o : nested_output) : nested_output :=
  {| step_ := step_ o; indent_ := indent_ o; enabled_ := false |}.

(** [nested_output::nest _ = out.push()]: the output within the scope. *)
Definition push (o : nested_output) : nested_output :=
  {| step_ := step_ o; indent_ := indent_ o + step_ o; enabled_ := enabled_ o |}.

(** [out << a << b << end_message()]. *)
Definition message (o : nested_output) (text : list frag) : M unit :=
  if enabled_ o then write_cerr (indent_ o, text) else ret tt.

(** ** The reporters *)

(** [class reporter_base].  Its [out_] is a reference to the [nested_output]
    of [metadata_check], which the visits below are handed as it stands at
    the call; what the reporter itself holds is [err_]. *)
Record reporter_base : Type := { err_ : error_state }.

(** The constructor: [err_(NO_ERROR)]. *)
Definition reporter : reporter_base := {| err_ := NO_ERROR |}.

Definition get_error (r : reporter_base) : error_state := err_ r.

Definition mplus_error (r : reporter_base) (err : error_state) : reporter_base :=
  {| err_ := combine_errors (err_ r) err |}.

(** The [damage_visitor] interfaces: one [visit] per kind of report. *)
Class damage_visitor (D : Type) : Type :=
  visit : D -> nested_output -> reporter_base -> M reporter_base.

#[export] Instance superblock_reporter : damage_visitor superblock_damage :=
  fun d out r =>
    match d with
    | superblock_corrupt desc =>
        message out [Txt "superblock is corrupt"] ;;
        message (push out) [Txt desc] ;;
        ret (mplus_error r FATAL)
    | superblock_invalid desc =>
        message out [Txt "superblock is invalid"] ;;
        message (push out) [Txt desc] ;;
        ret (mplus_error r FATAL)
    end.

#[export] Instance mapping_reporter : damage_visitor mapping_array_damage :=
  fun d out r =>
    match d with
    | missing_mappings desc keys =>
        message out [Txt "missing mappings "; Keys (begin_ keys) (end_ keys); Txt ":"] ;;
        message (push out) [Txt desc] ;;
        ret (mplus_error r FATAL)
    | invalid_mapping desc cblock m =>
        message out [Txt "invalid mapping:"] ;;
        message (push out)
          [Txt desc; Txt " [cblock = "; Num cblock; Txt ", oblock = "; Num (oblock_ m);
           Txt ", flags = "; Num (flags_ m); Txt "]"] ;;
        ret (mplus_error r FATAL)
    end.

#[export] Instance hint_reporter : damage_visitor hint_array_damage :=
  fun d out r =>
    match d with
    | missing_hints desc keys =>
        message out [Txt "missing mappings "; Keys (begin_ keys) (end_ keys); Txt ":"] ;;
        message (push out) [Txt desc] ;;
        ret (mplus_error r FATAL)
    end.

#[export] Instance discard_reporter : damage_visitor bitset_item :=
  fun d out r =>
    match d with
    | bit index value => ret r
    | missing_bits desc keys =>
        message out [Txt "missing discard bits "; Keys (begin_ keys) (end_ keys)] ;;
        ret (mplus_error r FATAL)
    end.

(** A walker hands its reports to the visitor one after the other. *)
Fixpoint deliver {D : Type} {V : damage_visitor D}
  (ds : list D) (out : nested_output) (r : reporter_base) : M reporter_base :=
  match ds with
  | [] => ret r
  | d :: ds' => r' <- visit d out r ;; deliver ds' out r'
  end.

(** A call of a walker with a visitor: the reports, then the exception that
    ends the walk if there is one. *)
Definition walk_with {D : Type} {V : damage_visitor D}
  (c : call) (wk : walk D) (out : nested_output) (r : reporter_base) : M reporter_base :=
  log c ;;
  r' <- deliver (delivered wk) out r ;;
  match raised wk with
  | Some e => throw e
  | None => ret r'
  end.

(** ** The checker *)

Record flags : Type := {
  check_mappings_ : bool;
  check_hints_ : bool;
  check_discards_ : bool;
  ignore_non_fatal_errors_ : bool;
  quiet_ : bool;
  clear_needs_check_on_success_ : bool
}.

(** The constructor of [flags]. *)
Definition flags_default : flags :=
  {| check_mappings_ := true;
     check_hints_ := true;
     check_discards_ := true;
     ignore_non_fatal_errors_ := false;
     quiet_ := false;
     clear_needs_check_on_success_ := false |}.

(** [S_ISREG] and [S_ISBLK] of [<sys/stat.h>] on [st_mode]. *)
Definition S_IFMT : Z := 61440.
Definition S_IFREG : Z := 32768.
Definition S_IFBLK : Z := 24576.
Definition S_ISREG (m : Z) : bool := Z.land m S_IFMT =? S_IFREG.
Definition S_ISBLK (m : Z) : bool := Z.land m S_IFMT =? S_IFBLK.

(** Where [metadata_check] stands before its last statement: it has
    returned already, or it holds its four reporters. *)
Inductive verdict : Type :=
| returned_early (err : error_state)
| reporters (sb_rep mapping_rep hint_rep discard_rep : reporter_base).

(** The last statement of [metadata_check]. *)
Definition combined (v : verdict) : error_state :=
  match v with
  | returned_early err => err
  | reporters sb_rep mapping_rep hint_rep discard_rep =>
      combine_errors (get_error sb_rep)
        (combine_errors (get_error mapping_rep)
           (combine_errors (get_error hint_rep) (get_error discard_rep)))
  end.

(** Lines 313 to 318 of [check]. *)
Definition success (fs : flags) (err : error_state) : bool :=
  if ignore_non_fatal_errors_ fs
  then (if err == FATAL then false else true)
  else (if err == NO_ERROR then true else false).

(** The [return] of [check]. *)
Definition exit_code (err : error_state) : Z :=
  if err == NO_ERROR then 0 else 1.

Section Checker.

Variable path : string.
Variable dev : device.

Definition guarded_stat : M Z :=
  log c_stat ;;
  match dev_stat dev with
  | inl errno_text => throw (path ++ ": " ++ errno_text)%string
  | inr st_mode => ret st_mode
  end.

Definition open_bm (m : mode) : M unit :=
  extern_ (c_open_bm m) (dev_open_bm dev m).

Definition get_nr_blocks : M Z :=
  log c_get_nr_blocks ;; ret (dev_get_nr_blocks dev).

Definition read_superblock : M Metadata.superblock :=
  log c_read_superblock ;;
  match dev_read_superblock dev with
  | Some e => throw e
  | None => fun w => (Returned (block0 w), w)
  end.

Definition write_superblock (sb : Metadata.superblock) : M unit :=
  log (c_write_superblock sb) ;;
  match dev_write_superblock dev with
  | Some e => throw e
  | None => fun w => (Returned tt, {| cerr := cerr w; calls := calls w; block0 := sb |})
  end.

Definition open_tm (location : Z) : M unit :=
  extern_ (c_open_tm location) (dev_open_tm dev location).

(** The constructor of [persistent_data::bitset] (the record [bitset] holds
    its arguments); it is given no visitor. *)
Definition bitset_ (root nr_bits : Z) : M unit :=
  let b := {| bs_root := root; bs_nr_bits := nr_bits |} in
  extern_ (c_bitset b) (dev_bitset dev b).

(** Modelled from the spec: a walk of a bitset with a [bitset_visitor], the
    check that the two FIXME comments of [metadata_check] miss.  The checker
    never calls it. *)
Definition walk_bitset (b : bitset) (out : nested_output) (r : reporter_base) : M reporter_base :=
  walk_with (c_walk_bitset b) (dev_walk_bitset dev b) out r.

Definition clear_needs_check : M unit :=
  open_bm READ_WRITE ;;
  sb <- read_superblock ;;
  let sb := Metadata.with_flags sb
              (Metadata.clear_flag (Metadata.flags sb) Metadata.NEEDS_CHECK) in
  write_superblock sb.

(** [metadata_check] up to its last statement.  [needs_check_set] is the
    reference parameter: [None] while it holds no value.  The device stands
    for [path].  In the branch for a short file [check_for_xml] is handed
    [bm], which the source declares only further down, at [open_bm]; the
    call is taken by its answer, and no block manager is opened for it
    here.  Each [nested_output::nest] scope is the [push out] handed to the
    walker inside it. *)
Definition metadata_check_body (fs : flags) (needs_check_set : option bool)
  : M (verdict * option bool) :=
  let out := nested_output_on_cerr 2 in
  let out := if quiet_ fs then disable out else out in
  len <- extern c_get_file_length (dev_get_file_length dev) ;;
  if len <? MD_BLOCK_SIZE then
    xml <- extern c_check_for_xml (dev_check_for_xml dev) ;;
    if xml : bool then
      message out
        [Txt "This looks like XML.  cache_check only checks the binary metadata format."] ;;
      ret (returned_early FATAL, needs_check_set)
    else
      message out [Txt "Metadata device/file too small.  Is this binary metadata?"] ;;
      ret (returned_early FATAL, needs_check_set)
  else
    open_bm READ_ONLY ;;
    let sb_rep := reporter in
    let mapping_rep := reporter in
    let hint_rep := reporter in
    let discard_rep := reporter in
    message out [Txt "examining superblock"] ;;
    nr_blocks <- get_nr_blocks ;;
    sb_rep <- walk_with (c_check_superblock nr_blocks)
                (dev_check_superblock dev nr_blocks) (push out) sb_rep ;;
    if get_error sb_rep == FATAL then
      ret (returned_early FATAL, needs_check_set)
    else
      sb <- read_superblock ;;
      open_tm SUPERBLOCK_LOCATION ;;
      let needs_check_set :=
        Some (Metadata.get_flag (Metadata.flags sb) Metadata.NEEDS_CHECK) in
      mapping_rep <-
        (if check_mappings_ fs then
           message out [Txt "examining mapping array"] ;;
           let ma := {| ma_root := Metadata.mapping_root sb;
                        ma_nr_entries := Metadata.cache_blocks sb |} in
           mapping_rep <- walk_with (c_check_mapping_array ma (Metadata.version sb))
                            (dev_check_mapping_array dev ma (Metadata.version sb))
                            (push out) mapping_rep ;;
           (if 2 <=? Metadata.version sb then
              match Metadata.dirty_root sb with
              | Some root => bitset_ root (Metadata.cache_blocks sb)
              | None => undefined
              end
            else ret tt) ;;
           ret mapping_rep
         else ret mapping_rep) ;;
      hint_rep <-
        (if check_hints_ fs then
           if Metadata.hint_root sb =? 0 then
             message out [Txt "no hint array present"] ;;
             ret hint_rep
           else
             message out [Txt "examining hint array"] ;;
             let ha := {| ha_width := Metadata.policy_hint_size sb;
                          ha_root := Metadata.hint_root sb;
                          ha_nr_entries := Metadata.cache_blocks sb |} in
             walk_with (c_hint_array_check ha) (dev_hint_array_check dev ha)
               (push out) hint_rep
         else ret hint_rep) ;;
      (if check_discards_ fs then
         if Metadata.discard_root sb =? 0 then
           message out [Txt "no discard bitset present"]
         else
           message out [Txt "examining discard bitset"] ;;
           bitset_ (Metadata.discard_root sb) (Metadata.discard_nr_blocks sb)
       else ret tt) ;;
      ret (reporters sb_rep mapping_rep hint_rep discard_rep, needs_check_set).

Definition metadata_check (fs : flags) (needs_check_set : option bool)
  : M (error_state * option bool) :=
  r <- metadata_check_body fs needs_check_set ;;
  ret (combined (fst r), snd r).

Definition check (fs : flags) : M Z :=
  info <- guarded_stat ;;
  if negb (S_ISREG info) && negb (S_ISBLK info) then
    throw (path ++ ": " ++ "Not a block device or regular file")%string
  else
    r <- metadata_check fs None ;;
    let err := fst r in
    let needs_check_set := snd r in
    (if success fs err && clear_needs_check_on_success_ fs then
       match needs_check_set with
       | Some true => clear_needs_check
       | Some false => ret tt
       | None => undefined
       end
     else ret tt) ;;
    ret (exit_code err).

Definition check_with_exception_handling (fs : flags) : M Z :=
  try_catch (check fs)
    (fun e =>
       (if negb (quiet_ fs) then write_cerr (0, [Txt e]) else ret tt) ;;
       ret 1).

End Checker.

(** ** Concrete devices *)

Module Examples.

Definition clean {D : Type} : walk D := {| delivered := []; raised := None |}.

Definition damaged {D : Type} (ds : list D) : walk D :=
  {| delivered := ds; raised := None |}.

Definition broken {D : Type} (e : exn) : walk D :=
  {| delivered := []; raised := Some e |}.

(** A version 2 superblock with NEEDS_CHECK set. *)
Definition sb_v2 : Metadata.superblock :=
  {| Metadata.flags := 1;
     Metadata.version := 2;
     Metadata.mapping_root := 1;
     Metadata.hint_root := 2;
     Metadata.discard_root := 3;
     Metadata.dirty_root := Some 4;
     Metadata.cache_blocks := 10;
     Metadata.discard_nr_blocks := 8;
     Metadata.policy_hint_size := 4 |}.

(** A device is put together from what varies between the examples: the
    answer of [stat], the file length, the XML test and the four walks. *)
Definition mk_device
  (st : string + Z) (len : Z) (xml : bool)
  (sb_walk : walk superblock_damage)
  (ma_walk : walk mapping_array_damage)
  (ha_walk : walk hint_array_damage)
  (bits : walk bitset_item) : device :=
  {| dev_stat := st;
     dev_get_file_length := inr len;
     dev_check_for_xml := inr xml;
     dev_open_bm := fun _ => None;
     dev_get_nr_blocks := len / MD_BLOCK_SIZE;
     dev_check_superblock := fun _ => sb_walk;
     dev_read_superblock := None;
     dev_open_tm := fun _ => None;
     dev_check_mapping_array := fun _ _ => ma_walk;
     dev_hint_array_check := fun _ => ha_walk;
     dev_bitset := fun _ => None;
     dev_walk_bitset := fun _ => bits;
     dev_write_superblock := None |}.

(** [st_mode] of a regular file, a block device and a directory. *)
Definition regular : Z := 33188.
Definition block_device : Z := 25008.
Definition directory : Z := 16877.

Definition healthy : device :=
  mk_device (inr regular) 65536 false clean clean clean clean.

Definition empty_file : device :=
  mk_device (inr regular) 0 false clean clean clean clean.

Definition xml_file : device :=
  mk_device (inr regular) 23 true clean clean clean clean.

Definition bad_checksum : device :=
  mk_device (inr regular) 65536 false
    (damaged [superblock_corrupt "bad checksum in superblock"]) clean clean clean.

Definition mapping_9_missing : device :=
  mk_device (inr block_device) 65536 false clean
    (damaged [missing_mappings "missing mappings"
                {| begin_ := Some 9; end_ := Some 10 |}]) clean clean.

Definition dirty_bits_missing : device :=
  mk_device (inr regular) 65536 false clean clean clean
    (damaged [missing_bits "missing bits" {| begin_ := Some 0; end_ := Some 10 |}]).

Definition read_error : device :=
  mk_device (inr regular) 65536 false clean (broken "read failed") clean clean.

Definition no_such_file : device :=
  mk_device (inl "No such file or directory") 0 false clean clean clean clean.

Definition a_directory : device :=
  mk_device (inr directory) 4096 false clean clean clean clean.

(** A regular file of 100 bytes; [check_for_xml] is handed a block manager
    and throws on the short read. *)
Definition short_unreadable : device :=
  {| dev_stat := inr regular;
     dev_get_file_length := inr 100;
     dev_check_for_xml := inl "metadata.bin: short read"%string;
     dev_open_bm := fun _ => None;
     dev_get_nr_blocks := 0;
     dev_check_superblock := fun _ => clean;
     dev_read_superblock := None;
     dev_open_tm := fun _ => None;
     dev_check_mapping_array := fun _ _ => clean;
     dev_hint_array_check := fun _ => clean;
     dev_bitset := fun _ => None;
     dev_walk_bitset := fun _ => clean;
     dev_write_superblock := None |}.

(** The world before the checker runs. *)
Definition boot (sb : Metadata.superblock) : world :=
  {| cerr := []; calls := []; block0 := sb |}.

Definition quiet (fs : flags) : flags :=
  {| check_mappings_ := check_mappings_ fs;
     check_hints_ := check_hints_ fs;
     check_discards_ := check_discards_ fs;
     ignore_non_fatal_errors_ := ignore_non_fatal_errors_ fs;
     quiet_ := true;
     clear_needs_check_on_success_ := clear_needs_check_on_success_ fs |}.

Definition clearing (fs : flags) : flags :=
  {| check_mappings_ := check_mappings_ fs;
     check_hints_ := check_hints_ fs;
     check_discards_ := check_discards_ fs;
     ignore_non_fatal_errors_ := ignore_non_fatal_errors_ fs;
     quiet_ := quiet_ fs;
     clear_needs_check_on_success_ := true |}.

Definition ignoring_non_fatal (fs : flags) : flags :=
  {| check_mappings_ := check_mappings_ fs;
     check_hints_ := check_hints_ fs;
     check_discards_ := check_discards_ fs;
     ignore_non_fatal_errors_ := true;
     quiet_ := quiet_ fs;
     clear_needs_check_on_success_ := clear_needs_check_on_success_ fs |}.

End Examples.

Import Examples.

(** * Notions used in the statements *)

(** [extends l w w']: from [w] to [w'] the calls [l] were made and block 0
    was not written; what went to [cerr] is left open. *)
Definition extends (l : list call) (w w' : world) : Prop :=
  calls w' = calls w ++ l /\ block0 w' = block0 w.

(** The postcondition [Q] holds of the outcome and the world of [m] run
    from [w]. *)
Definition wp {A : Type} (m : M A) (Q : outcome A -> world -> Prop) (w : world) : Prop :=
  Q (fst (m w)) (snd (m w)).

(** A visitor of [D] whose [visit] returns, joins [severity d] into the
    reporter it was given, and touches nothing but [cerr]. *)
Definition reports {D : Type} (V : damage_visitor D) (severity : D -> error_state) : Prop :=
  forall (d : D) (out : nested_output) (r : reporter_base) (w : world),
    wp (visit d out r)
       (fun o w' => o = Returned (mplus_error r (severity d)) /\ extends [] w w') w.

(** What a report of a bitset walk weighs: a bit nothing, missing bits FATAL. *)
Definition bitset_severity (d : bitset_item) : error_state :=
  match d with
  | bit _ _ => NO_ERROR
  | missing_bits _ _ => FATAL
  end.

(** The reporter after a walker has handed it the reports [ds]. *)
Definition struck {D : Type} (severity : D -> error_state) (ds : list D) (r : reporter_base)
  : reporter_base :=
  fold_left (fun r d => mplus_error r (severity d)) ds r.

(** The calls of a check that only reads: no read-write open, no superblock
    write, and no walk of a bitset. *)
Definition read_only_call (c : call) : bool :=
  match c with
  | c_open_bm READ_WRITE => false
  | c_write_superblock _ => false
  | c_walk_bitset _ => false
  | _ => true
  end.

(** What holds when [metadata_check] reaches its last statement with the
    reporters [sb_rep], [mapping_rep], [hint_rep] and [discard_rep], having
    started in [w] and made the calls [l]. *)
Definition examined (dev : device) (fs : flags) (w : world)
  (sb_rep mapping_rep hint_rep discard_rep : reporter_base)
  (needs_check_set : option bool) (l : list call) : Prop :=
  let sb := block0 w in
  let ma := {| ma_root := Metadata.mapping_root sb;
               ma_nr_entries := Metadata.cache_blocks sb |} in
  let ha := {| ha_width := Metadata.policy_hint_size sb;
               ha_root := Metadata.hint_root sb;
               ha_nr_entries := Metadata.cache_blocks sb |} in
  sb_rep = reporter /\
  discard_rep = reporter /\
  mapping_rep =
    (if check_mappings_ fs
     then struck (fun _ => FATAL)
            (delivered (dev_check_mapping_array dev ma (Metadata.version sb))) reporter
     else reporter) /\
  hint_rep =
    (if check_hints_ fs
     then if Metadata.hint_root sb =? 0
          then reporter
          else struck (fun _ => FATAL) (delivered (dev_hint_array_check dev ha)) reporter
     else reporter) /\
  needs_check_set = Some (Metadata.get_flag (Metadata.flags sb) Metadata.NEEDS_CHECK) /\
  (check_mappings_ fs = true ->
   In (c_check_mapping_array ma (Metadata.version sb)) l) /\
  (check_mappings_ fs = true -> (2 <=? Metadata.version sb) = true ->
   exists root, Metadata.dirty_root sb = Some root /\
     In (c_bitset {| bs_root := root; bs_nr_bits := Metadata.cache_blocks sb |}) l) /\
  (check_hints_ fs = true -> (Metadata.hint_root sb =? 0) = false ->
   In (c_hint_array_check ha) l) /\
  (check_discards_ fs = true -> (Metadata.discard_root sb =? 0) = false ->
   In (c_bitset {| bs_root := Metadata.discard_root sb;
                   bs_nr_bits := Metadata.discard_nr_blocks sb |}) l).

(** What every run of [metadata_check_body] satisfies: it only reads, an
    early return is FATAL and leaves [needs_check_set] alone, and a run to
    the last statement has [examined] the device. *)
Definition body_post (dev : device) (fs : flags) (ncs : option bool) (w : world)
  (o : outcome (verdict * option bool)) (w' : world) : Prop :=
  exists l : list call,
    extends l w w' /\
    forallb read_only_call l = true /\
    match o with
    | Returned (returned_early err, ncs') => err = FATAL /\ ncs' = ncs
    | Returned (reporters a b c d, ncs') => examined dev fs w a b c d ncs' l
    | _ => True
    end.

(** Two worlds with the same calls made and the same block 0; what was
    written to [cerr] may differ. *)
Definition same_but_cerr (w1 w2 : world) : Prop :=
  calls w1 = calls w2 /\ block0 w1 = block0 w2.

(** Two computations that, from such worlds, end the same way in such
    worlds. *)
Definition alike {A : Type} (m1 m2 : M A) : Prop :=
  forall w1 w2 : world,
    same_but_cerr w1 w2 ->
    fst (m1 w1) = fst (m2 w2) /\ same_but_cerr (snd (m1 w1)) (snd (m2 w2)).

(** Flags that differ at most in [quiet_]. *)
Definition same_but_quiet (fs fs' : flags) : Prop :=
  check_mappings_ fs = check_mappings_ fs' /\
  check_hints_ fs = check_hints_ fs' /\
  check_discards_ fs = check_discards_ fs' /\
  ignore_non_fatal_errors_ fs = ignore_non_fatal_errors_ fs' /\
  clear_needs_check_on_success_ fs = clear_needs_check_on_success_ fs'.

(** The world once the call [c] is on the log. *)
Definition logged (c : call) (w : world) : world :=
  {| cerr := cerr w; calls := calls w ++ [c]; block0 := block0 w |}.

(** The world once the line [l] is on [cerr]. *)
Definition printed (l : line) (w : world) : world :=
  {| cerr := cerr w ++ [l]; calls := calls w; block0 := block0 w |}.

(** How [check] ends once [metadata_check] has returned [err] and
    [needs_check_set] in the world [w1]. *)
Definition check_from (dev : device) (fs : flags)
  (err : error_state) (needs_check_set : option bool) (w1 : world) : outcome Z * world :=
  if success fs err && clear_needs_check_on_success_ fs then
    match needs_check_set with
    | Some true =>
        match clear_needs_check dev w1 with
        | (Returned _, w2) => (Returned (exit_code err), w2)
        | (Thrown e, w2) => (Thrown e, w2)
        | (Undefined, w2) => (Undefined, w2)
        end
    | Some false => (Returned (exit_code err), w1)
    | None => (Undefined, w1)
    end
  else (Returned (exit_code err), w1).

(** * Properties *)

(** ** The error states *)

Lemma error_state_eqb_eq (a b : error_state) : (a == b) = true <-> a = b.
Proof. destruct a, b; simpl; split; congruence. Qed.

Lemma combine_errors_level (a b : error_state) :
  level (combine_errors a b) = Z.max (level a) (level b).
Proof. destruct a, b; reflexivity. Qed.

Lemma combine_errors_assoc (a b c : error_state) :
  combine_errors a (combine_errors b c) = combine_errors (combine_errors a b) c.
Proof. destruct a, b, c; reflexivity. Qed.

Lemma combine_errors_comm (a b : error_state) :
  combine_errors a b = combine_errors b a.
Proof. destruct a, b; reflexivity. Qed.

Lemma combine_errors_idem (a : error_state) : combine_errors a a = a.
Proof. destruct a; reflexivity. Qed.

Lemma combine_errors_NO_ERROR_l (a : error_state) : combine_errors NO_ERROR a = a.
Proof. destruct a; reflexivity. Qed.

Lemma combine_errors_NO_ERROR_r (a : error_state) : combine_errors a NO_ERROR = a.
Proof. destruct a; reflexivity. Qed.

Lemma combine_errors_FATAL_l (a : error_state) : combine_errors FATAL a = FATAL.
Proof. destruct a; reflexivity. Qed.

Lemma combine_errors_FATAL_r (a : error_state) : combine_errors a FATAL = FATAL.
Proof. destruct a; reflexivity. Qed.

Lemma mplus_error_NO_ERROR (r : reporter_base) : mplus_error r NO_ERROR = r.
Proof. destruct r as [e]; unfold mplus_error; simpl. now rewrite combine_errors_NO_ERROR_r. Qed.

Lemma get_error_mplus_FATAL (r : reporter_base) : get_error (mplus_error r FATAL) = FATAL.
Proof. unfold get_error, mplus_error; simpl. apply combine_errors_FATAL_r. Qed.

(** ** Reasoning about runs *)

Lemma extends_refl (w : world) : extends [] w w.
Proof. split; [now rewrite app_nil_r | reflexivity]. Qed.

Lemma extends_trans (l1 l2 : list call) (w0 w1 w2 : world) :
  extends l1 w0 w1 -> extends l2 w1 w2 -> extends (l1 ++ l2) w0 w2.
Proof.
  intros [C1 B1] [C2 B2]. split.
  - now rewrite C2, C1, app_assoc.
  - congruence.
Qed.

Section WpRules.

Context {A B : Type}.

Lemma wp_ret (a : A) (Q : outcome A -> world -> Prop) (w : world) :
  Q (Returned a) w -> wp (ret a) Q w.
Proof. exact (fun H => H). Qed.

Lemma wp_throw (e : exn) (Q : outcome A -> world -> Prop) (w : world) :
  Q (Thrown e) w -> wp (throw e) Q w.
Proof. exact (fun H => H). Qed.

Lemma wp_undefined (Q : outcome A -> world -> Prop) (w : world) :
  Q Undefined w -> wp undefined Q w.
Proof. exact (fun H => H). Qed.

Lemma wp_bind (m : M A) (k : A -> M B) (Q : outcome B -> world -> Prop) (w : world) :
  wp m (fun o w' =>
          match o with
          | Returned a => wp (k a) Q w'
          | Thrown e => Q (Thrown e) w'
          | Undefined => Q Undefined w'
          end) w ->
  wp (bind m k) Q w.
Proof. unfold wp, bind. destruct (m w) as [[a|e|] w']; simpl; auto. Qed.

Lemma wp_weaken (m : M A) (Q Q' : outcome A -> world -> Prop) (w : world) :
  wp m Q w -> (forall o w', Q o w' -> Q' o w') -> wp m Q' w.
Proof. unfold wp; auto. Qed.

End WpRules.

Lemma wp_log (c : call) (Q : outcome unit -> world -> Prop) (w : world) :
  (forall w', extends [c] w w' -> cerr w' = cerr w -> Q (Returned tt) w') ->
  wp (log c) Q w.
Proof. intros H. apply H; [split|]; reflexivity. Qed.

Lemma wp_message (o : nested_output) (t : list frag)
  (Q : outcome unit -> world -> Prop) (w : world) :
  (forall w', extends [] w w' -> Q (Returned tt) w') ->
  wp (message o t) Q w.
Proof.
  intros H. unfold wp, message. destruct (enabled_ o); apply H; simpl.
  - split; simpl; [now rewrite app_nil_r | reflexivity].
  - apply extends_refl.
Qed.

Lemma wp_extern {A : Type} (c : call) (answer : exn + A)
  (Q : outcome A -> world -> Prop) (w : world) :
  (forall w', extends [c] w w' -> cerr w' = cerr w ->
     match answer with
     | inl e => Q (Thrown e) w'
     | inr a => Q (Returned a) w'
     end) ->
  wp (extern c answer) Q w.
Proof.
  intros H. unfold extern. apply wp_bind, wp_log. intros w' E C.
  specialize (H w' E C). destruct answer; assumption.
Qed.

Lemma wp_extern_ (c : call) (answer : option exn)
  (Q : outcome unit -> world -> Prop) (w : world) :
  (forall w', extends [c] w w' -> cerr w' = cerr w ->
     match answer with
     | Some e => Q (Thrown e) w'
     | None => Q (Returned tt) w'
     end) ->
  wp (extern_ c answer) Q w.
Proof.
  intros H. unfold extern_. apply wp_bind, wp_log. intros w' E C.
  specialize (H w' E C). destruct answer; assumption.
Qed.

(** ** The visitors *)

Ltac wp_step :=
  lazymatch goal with
  | |- wp (bind _ _) _ _ => apply wp_bind
  | |- wp (ret _) _ _ => apply wp_ret
  | |- wp (throw _) _ _ => apply wp_throw
  | |- wp undefined _ _ => apply wp_undefined
  | |- wp (message _ _) _ _ => apply wp_message; intros ? ?
  | |- wp (log _) _ _ => apply wp_log; intros ? ? ?
  | |- wp (extern _ _) _ _ => apply wp_extern; intros ? ? ?
  | |- wp (extern_ _ _) _ _ => apply wp_extern_; intros ? ? ?
  end.

(** Two steps that touch only [cerr] do so together. *)
Lemma extends_nil_trans (w0 w1 w2 : world) :
  extends [] w0 w1 -> extends [] w1 w2 -> extends [] w0 w2.
Proof. intros H1 H2. exact (extends_trans H1 H2). Qed.

Lemma superblock_reporter_reports : reports superblock_reporter (fun _ => FATAL).
Proof.
  intros [desc|desc] out r w; unfold visit, superblock_reporter;
    repeat wp_step; eauto using extends_nil_trans.
Qed.

Lemma mapping_reporter_reports : reports mapping_reporter (fun _ => FATAL).
Proof.
  intros [desc keys|desc cblock m] out r w; unfold visit, mapping_reporter;
    repeat wp_step; eauto using extends_nil_trans.
Qed.

Lemma hint_reporter_reports : reports hint_reporter (fun _ => FATAL).
Proof.
  intros [desc keys] out r w; unfold visit, hint_reporter;
    repeat wp_step; eauto using extends_nil_trans.
Qed.

Lemma discard_reporter_reports : reports discard_reporter bitset_severity.
Proof.
  intros [index value|desc keys] out r w; unfold visit, discard_reporter; simpl.
  - apply wp_ret. rewrite mplus_error_NO_ERROR. split; [reflexivity | apply extends_refl].
  - repeat wp_step; eauto.
Qed.

Section Walks.

Context {D : Type} (V : damage_visitor D) (severity : D -> error_state).
Hypothesis visit_reports : reports V severity.

Lemma wp_deliver (ds : list D) (out : nested_output) (r : reporter_base)
  (Q : outcome reporter_base -> world -> Prop) (w : world) :
  (forall w', extends [] w w' -> Q (Returned (struck severity ds r)) w') ->
  wp (deliver ds out r) Q w.
Proof.
  revert r w. induction ds as [|d ds IH]; intros r w H; simpl.
  - apply wp_ret, H, extends_refl.
  - apply wp_bind.
    eapply wp_weaken; [apply visit_reports|].
    intros o w1 [-> E1]. apply IH. intros w2 E2.
    apply H. eauto using extends_nil_trans.
Qed.

Lemma wp_walk_with (c : call) (wk : walk D) (out : nested_output) (r : reporter_base)
  (Q : outcome reporter_base -> world -> Prop) (w : world) :
  (forall w', extends [c] w w' ->
     match raised wk with
     | Some e => Q (Thrown e) w'
     | None => Q (Returned (struck severity (delivered wk) r)) w'
     end) ->
  wp (walk_with c wk out r) Q w.
Proof.
  intros H. unfold walk_with. apply wp_bind, wp_log. intros w1 E1 _.
  apply wp_bind, wp_deliver. intros w2 E2.
  specialize (H w2 (extends_trans E1 E2)). simpl in H.
  destruct (raised wk); [apply wp_throw | apply wp_ret]; assumption.
Qed.

End Walks.

(** A reporter that only ever hears FATAL is at NO_ERROR until its first
    report and at FATAL from then on. *)
Lemma struck_FATAL {D : Type} (ds : list D) (r : reporter_base) :
  get_error (struck (fun _ => FATAL) ds r) =
  match ds with
  | [] => get_error r
  | _ :: _ => FATAL
  end.
Proof.
  destruct ds as [|d ds]; [reflexivity|].
  simpl. generalize (mplus_error r FATAL), (get_error_mplus_FATAL r).
  induction ds as [|d' ds IH]; intros r' Hr'; simpl; [assumption|].
  apply IH, get_error_mplus_FATAL.
Qed.

Lemma struck_not_FATAL {D : Type} (ds : list D) :
  (get_error (struck (fun _ => FATAL) ds reporter) == FATAL) = false ->
  struck (fun _ => FATAL) ds reporter = reporter.
Proof.
  rewrite struck_FATAL. destruct ds; [reflexivity | discriminate].
Qed.

(** ** Running [metadata_check] *)

Lemma wp_read_superblock (dev : device)
  (Q : outcome Metadata.superblock -> world -> Prop) (w : world) :
  (forall w', extends [c_read_superblock] w w' ->
     match dev_read_superblock dev with
     | Some e => Q (Thrown e) w'
     | None => Q (Returned (block0 w)) w'
     end) ->
  wp (read_superblock dev) Q w.
Proof.
  intros H. unfold read_superblock. apply wp_bind, wp_log. intros w' E _.
  specialize (H w' E). destruct (dev_read_superblock dev); [exact H|].
  unfold wp; simpl. now rewrite (proj2 E).
Qed.

(** Facts about the worlds passed through are folded into one [extends]
    from the first world to the current one. *)
Ltac chain :=
  repeat match goal with
    | H : extends _ _ ?w1 |- context [block0 ?w1] => rewrite (proj2 H)
    end;
  repeat match goal with
    | H1 : extends ?l1 ?w0 ?w1, H2 : extends ?l2 ?w1 ?w2 |- _ =>
        let E := fresh "E" in
        pose proof (extends_trans H1 H2) as E; simpl app in E; clear H1 H2
    end.

(** One statement of the checker, every way it can end. *)
Ltac body_step :=
  lazymatch goal with
  | |- wp (bind _ _) _ _ => apply wp_bind
  | |- wp (ret _) _ _ => apply wp_ret
  | |- wp (throw _) _ _ => apply wp_throw
  | |- wp undefined _ _ => apply wp_undefined
  | |- wp (message _ _) _ _ => apply wp_message; intros ? ?
  | |- wp (log _) _ _ => apply wp_log; intros ? ? _
  | |- wp (extern _ ?a) _ _ => apply wp_extern; intros ? ? _; destruct a eqn:?
  | |- wp (extern_ _ ?a) _ _ => apply wp_extern_; intros ? ? _; destruct a eqn:?
  | |- wp (read_superblock ?d) _ _ =>
      apply wp_read_superblock; intros ? ?; destruct (dev_read_superblock d) eqn:?
  | |- wp (walk_with (c_check_superblock _) ?k _ _) _ _ =>
      apply (wp_walk_with superblock_reporter_reports); intros ? ?;
      destruct (raised k) eqn:?
  | |- wp (walk_with (c_check_mapping_array _ _) ?k _ _) _ _ =>
      apply (wp_walk_with mapping_reporter_reports); intros ? ?;
      destruct (raised k) eqn:?
  | |- wp (walk_with (c_hint_array_check _) ?k _ _) _ _ =>
      apply (wp_walk_with hint_reporter_reports); intros ? ?;
      destruct (raised k) eqn:?
  | |- wp (if ?b then _ else _) _ _ => destruct b eqn:?
  | |- wp (match ?x with _ => _ end) _ _ => destruct x eqn:?
  end; cbv beta iota; chain.

Ltac unfold_body :=
  unfold metadata_check_body, open_bm, open_tm, get_nr_blocks, bitset_; cbv zeta.

Lemma metadata_check_body_wp (dev : device) (fs : flags) (ncs : option bool) (w : world) :
  wp (metadata_check_body dev fs ncs) (body_post dev fs ncs w) w.
Proof.
  unfold body_post, examined; unfold_body.
  repeat body_step;
    (eexists; split; [eassumption|]); (split; [reflexivity|]);
    try exact I; try (split; reflexivity);
    (split; [now apply struck_not_FATAL|]);
    repeat (split; [reflexivity|]);
    repeat split; intros; try discriminate; simpl; eauto 12.
Qed.

Lemma metadata_check_body_run (dev : device) (fs : flags) (ncs : option bool)
  (w : world) (o : outcome (verdict * option bool)) (w' : world) :
  metadata_check_body dev fs ncs w = (o, w') -> body_post dev fs ncs w o w'.
Proof.
  intros R. generalize (metadata_check_body_wp dev fs ncs w).
  unfold wp. now rewrite R.
Qed.

(** ** Runs that differ only in what they print *)

Lemma same_but_cerr_refl (w : world) : same_but_cerr w w.
Proof. split; reflexivity. Qed.

Lemma extends_same_but_cerr (l : list call) (w1 w2 w1' w2' : world) :
  same_but_cerr w1 w2 -> extends l w1 w1' -> extends l w2 w2' -> same_but_cerr w1' w2'.
Proof.
  intros [C B] [C1 B1] [C2 B2]. split; congruence.
Qed.

Section Alike.

Context {A B : Type}.

Lemma alike_ret (a : A) : alike (ret a) (ret a).
Proof. intros w1 w2 S. split; [reflexivity | exact S]. Qed.

Lemma alike_throw (e : exn) : alike (@throw A e) (throw e).
Proof. intros w1 w2 S. split; [reflexivity | exact S]. Qed.

Lemma alike_undefined : alike (@undefined A) undefined.
Proof. intros w1 w2 S. split; [reflexivity | exact S]. Qed.

Lemma alike_bind (m1 m2 : M A) (k1 k2 : A -> M B) :
  alike m1 m2 -> (forall a, alike (k1 a) (k2 a)) -> alike (bind m1 k1) (bind m2 k2).
Proof.
  intros Hm Hk w1 w2 S. unfold bind.
  destruct (Hm w1 w2 S) as [O S'].
  destruct (m1 w1) as [o1 w1'], (m2 w2) as [o2 w2']; simpl in O, S'; subst o2.
  destruct o1 as [a|e|]; [apply Hk, S' | split; [reflexivity | exact S'] ..].
Qed.

Lemma alike_try_catch (m1 m2 : M A) (h1 h2 : exn -> M A) :
  alike m1 m2 -> (forall e, alike (h1 e) (h2 e)) ->
  alike (try_catch m1 h1) (try_catch m2 h2).
Proof.
  intros Hm Hh w1 w2 S. unfold try_catch.
  destruct (Hm w1 w2 S) as [O S'].
  destruct (m1 w1) as [o1 w1'], (m2 w2) as [o2 w2']; simpl in O, S'; subst o2.
  destruct o1 as [a|e|]; [split; [reflexivity | exact S'] | apply Hh, S' |
                          split; [reflexivity | exact S']].
Qed.

End Alike.

(** Two computations that return the same value and touch only [cerr] are
    alike, whatever they print. *)
Lemma alike_printing {A : Type} (m1 m2 : M A) (a : A) :
  (forall w, wp m1 (fun o w' => o = Returned a /\ extends [] w w') w) ->
  (forall w, wp m2 (fun o w' => o = Returned a /\ extends [] w w') w) ->
  alike m1 m2.
Proof.
  intros H1 H2 w1 w2 S.
  destruct (H1 w1) as [O1 E1], (H2 w2) as [O2 E2].
  split; [congruence | exact (extends_same_but_cerr S E1 E2)].
Qed.

Lemma write_cerr_prints (l : line) (w : world) :
  wp (write_cerr l) (fun o' w' => o' = Returned tt /\ extends [] w w') w.
Proof.
  unfold wp, write_cerr; simpl. split; [reflexivity|].
  split; simpl; [now rewrite app_nil_r | reflexivity].
Qed.

Lemma message_prints (o : nested_output) (t : list frag) (w : world) :
  wp (message o t) (fun o' w' => o' = Returned tt /\ extends [] w w') w.
Proof. apply wp_message. auto. Qed.

Lemma alike_message (o1 o2 : nested_output) (t1 t2 : list frag) :
  alike (message o1 t1) (message o2 t2).
Proof. apply alike_printing with (a := tt); intros w; apply message_prints. Qed.

Lemma alike_log (c : call) : alike (log c) (log c).
Proof.
  intros w1 w2 [C B]. split; [reflexivity|]. split; simpl; congruence.
Qed.

Lemma alike_extern {A : Type} (c : call) (answer : exn + A) :
  alike (extern c answer) (extern c answer).
Proof.
  unfold extern. apply alike_bind; [apply alike_log|].
  intros _. destruct answer; [apply alike_throw | apply alike_ret].
Qed.

Lemma alike_extern_ (c : call) (answer : option exn) :
  alike (extern_ c answer) (extern_ c answer).
Proof.
  unfold extern_. apply alike_bind; [apply alike_log|].
  intros _. destruct answer; [apply alike_throw | apply alike_ret].
Qed.

Lemma alike_read_superblock (dev : device) :
  alike (read_superblock dev) (read_superblock dev).
Proof.
  unfold read_superblock. apply alike_bind; [apply alike_log|].
  intros _. destruct (dev_read_superblock dev); [apply alike_throw|].
  intros w1 w2 S. split; [simpl; now rewrite (proj2 S) | exact S].
Qed.

Lemma alike_write_superblock (dev : device) (sb : Metadata.superblock) :
  alike (write_superblock dev sb) (write_superblock dev sb).
Proof.
  unfold write_superblock. apply alike_bind; [apply alike_log|].
  intros _. destruct (dev_write_superblock dev); [apply alike_throw|].
  intros w1 w2 [C B]. split; [reflexivity|]. split; simpl; congruence.
Qed.

Section AlikeWalks.

Context {D : Type} (V : damage_visitor D) (severity : D -> error_state).
Hypothesis visit_reports : reports V severity.

Lemma alike_deliver (ds : list D) (o1 o2 : nested_output) (r : reporter_base) :
  alike (deliver ds o1 r) (deliver ds o2 r).
Proof.
  revert r. induction ds as [|d ds IH]; intros r; simpl.
  - apply alike_ret.
  - intros w1 w2 S. unfold bind.
    pose proof (visit_reports d o1 r w1) as [O1 E1].
    pose proof (visit_reports d o2 r w2) as [O2 E2].
    destruct (visit d o1 r w1) as [x1 w1'], (visit d o2 r w2) as [x2 w2'].
    simpl in O1, O2, E1, E2; subst x1 x2.
    apply IH. exact (extends_same_but_cerr S E1 E2).
Qed.

Lemma alike_walk_with (c : call) (wk : walk D) (o1 o2 : nested_output) (r : reporter_base) :
  alike (walk_with c wk o1 r) (walk_with c wk o2 r).
Proof.
  unfold walk_with. apply alike_bind; [apply alike_log|]. intros _.
  apply alike_bind; [apply alike_deliver|]. intros r'.
  destruct (raised wk); [apply alike_throw | apply alike_ret].
Qed.

End AlikeWalks.

Ltac alike_step :=
  lazymatch goal with
  | |- alike (bind _ _) (bind _ _) => apply alike_bind; [|intros ?]
  | |- alike (ret _) (ret _) => apply alike_ret
  | |- alike (throw _) (throw _) => apply alike_throw
  | |- alike undefined undefined => apply alike_undefined
  | |- alike (message _ _) (message _ _) => apply alike_message
  | |- alike (log _) (log _) => apply alike_log
  | |- alike (extern _ _) (extern _ _) => apply alike_extern
  | |- alike (extern_ _ _) (extern_ _ _) => apply alike_extern_
  | |- alike (read_superblock _) (read_superblock _) => apply alike_read_superblock
  | |- alike (write_superblock _ _) (write_superblock _ _) => apply alike_write_superblock
  | |- alike (walk_with (c_check_superblock _) _ _ _) _ =>
      apply (alike_walk_with superblock_reporter_reports)
  | |- alike (walk_with (c_check_mapping_array _ _) _ _ _) _ =>
      apply (alike_walk_with mapping_reporter_reports)
  | |- alike (walk_with (c_hint_array_check _) _ _ _) _ =>
      apply (alike_walk_with hint_reporter_reports)
  | |- alike (if ?b then _ else _) (if ?b then _ else _) => destruct b
  | |- alike (match ?x with _ => _ end) (match ?x with _ => _ end) => destruct x
  end.

Lemma alike_metadata_check_body (dev : device) (fs fs' : flags) (ncs : option bool) :
  same_but_quiet fs fs' ->
  alike (metadata_check_body dev fs ncs) (metadata_check_body dev fs' ncs).
Proof.
  destruct fs as [cm ch cd inf q cl], fs' as [cm' ch' cd' inf' q' cl'].
  unfold same_but_quiet; simpl. intros (<- & <- & <- & <- & <-).
  unfold_body; simpl.
  repeat alike_step.
Qed.

Lemma alike_metadata_check (dev : device) (fs fs' : flags) (ncs : option bool) :
  same_but_quiet fs fs' ->
  alike (metadata_check dev fs ncs) (metadata_check dev fs' ncs).
Proof.
  intros S. unfold metadata_check.
  apply alike_bind; [now apply alike_metadata_check_body | intros r; apply alike_ret].
Qed.

Lemma alike_clear_needs_check (dev : device) :
  alike (clear_needs_check dev) (clear_needs_check dev).
Proof. unfold clear_needs_check, open_bm. repeat alike_step. Qed.

Lemma alike_check (path : string) (dev : device) (fs fs' : flags) :
  same_but_quiet fs fs' ->
  alike (check path dev fs) (check path dev fs').
Proof.
  intros S. unfold check, guarded_stat.
  apply alike_bind; [repeat alike_step|]. intros info.
  destruct (negb (S_ISREG info) && negb (S_ISBLK info)); [apply alike_throw|].
  apply alike_bind; [now apply alike_metadata_check|]. intros [err ncs]; simpl.
  destruct S as (_ & _ & _ & I & C).
  unfold success. rewrite <- I, <- C.
  apply alike_bind; [|intros _; apply alike_ret].
  destruct (_ && _); [|apply alike_ret].
  destruct ncs as [[|]|];
    [apply alike_clear_needs_check | apply alike_ret | apply alike_undefined].
Qed.

Lemma alike_check_with_exception_handling (path : string) (dev : device) (fs fs' : flags) :
  same_but_quiet fs fs' ->
  alike (check_with_exception_handling path dev fs)
        (check_with_exception_handling path dev fs').
Proof.
  intros S. unfold check_with_exception_handling.
  apply alike_try_catch; [now apply alike_check|]. intros e.
  apply alike_bind; [|intros _; apply alike_ret].
  apply alike_printing with (a := tt); intros w;
    (destruct (negb _); [apply write_cerr_prints | apply wp_ret]);
    (split; [reflexivity | apply extends_refl]).
Qed.

(** ** Running [check] *)

Lemma check_run (path : string) (dev : device) (fs : flags) (w : world) :
  check path dev fs w =
    match dev_stat dev with
    | inl errno_text => (Thrown (path ++ ": " ++ errno_text)%string, logged c_stat w)
    | inr info =>
        if negb (S_ISREG info) && negb (S_ISBLK info)
        then (Thrown (path ++ ": " ++ "Not a block device or regular file")%string,
              logged c_stat w)
        else
          match metadata_check dev fs None (logged c_stat w) with
          | (Returned (err, ncs), w1) => check_from dev fs err ncs w1
          | (Thrown e, w1) => (Thrown e, w1)
          | (Undefined, w1) => (Undefined, w1)
          end
    end.
Proof.
  unfold check, guarded_stat, check_from, bind, log, ret, throw, logged.
  destruct (dev_stat dev) as [errno_text|info]; [reflexivity|].
  destruct (negb (S_ISREG info) && negb (S_ISBLK info)); [reflexivity|].
  destruct (metadata_check dev fs None _) as [[[err ncs]|e|] w1]; [|reflexivity..].
  cbn [fst snd].
  destruct (success fs err && clear_needs_check_on_success_ fs); [|reflexivity].
  destruct ncs as [[|]|]; [|reflexivity..].
  destruct (clear_needs_check dev w1) as [[[]|e|] w2]; reflexivity.
Qed.

Lemma check_with_exception_handling_run
  (path : string) (dev : device) (fs : flags) (w : world) :
  check_with_exception_handling path dev fs w =
    match check path dev fs w with
    | (Thrown e, w') => (Returned 1, if quiet_ fs then w' else printed (0, [Txt e]) w')
    | r => r
    end.
Proof.
  unfold check_with_exception_handling, try_catch.
  destruct (check path dev fs w) as [[r|e|] w']; [reflexivity| |reflexivity].
  unfold bind, write_cerr, ret, printed. destruct (quiet_ fs); reflexivity.
Qed.

Lemma success_FATAL (fs : flags) : success fs FATAL = false.
Proof. unfold success. destruct (ignore_non_fatal_errors_ fs); reflexivity. Qed.

Lemma success_NO_ERROR (fs : flags) : success fs NO_ERROR = true.
Proof. unfold success. destruct (ignore_non_fatal_errors_ fs); reflexivity. Qed.

(** ** The claims *)

(** C2.  [combine_errors] is the max over [NO_ERROR < NON_FATAL < FATAL]: it
    is associative, commutative and idempotent with [NO_ERROR] as identity;
    [mplus_error] joins into the reporter with it, and the last statement of
    [metadata_check] joins the four reporters, whatever the grouping. *)
Theorem combine_errors_is_the_join :
  (forall a b, level (combine_errors a b) = Z.max (level a) (level b)) /\
  (forall a b c,
     combine_errors a (combine_errors b c) = combine_errors (combine_errors a b) c) /\
  (forall a b, combine_errors a b = combine_errors b a) /\
  (forall a, combine_errors a a = a) /\
  (forall a, combine_errors NO_ERROR a = a /\ combine_errors a NO_ERROR = a) /\
  (forall r err, get_error (mplus_error r err) = combine_errors (get_error r) err) /\
  (forall s m h d,
     combined (reporters s m h d) =
       combine_errors
         (combine_errors (combine_errors (get_error s) (get_error m)) (get_error h))
         (get_error d) /\
     combined (reporters s m h d) =
       combine_errors (combine_errors (get_error d) (get_error h))
         (combine_errors (get_error m) (get_error s)) /\
     level (combined (reporters s m h d)) =
       Z.max (Z.max (level (get_error s)) (level (get_error m)))
             (Z.max (level (get_error h)) (level (get_error d)))) /\
  (forall dev fs ncs w,
     fst (metadata_check dev fs ncs w) =
       match fst (metadata_check_body dev fs ncs w) with
       | Returned r => Returned (combined (fst r), snd r)
       | Thrown e => Thrown e
       | Undefined => Undefined
       end).
Proof.
  split; [exact combine_errors_level|].
  split; [exact combine_errors_assoc|].
  split; [exact combine_errors_comm|].
  split; [exact combine_errors_idem|].
  split; [intros a; split; [apply combine_errors_NO_ERROR_l | apply combine_errors_NO_ERROR_r]|].
  split; [reflexivity|].
  split.
  - intros [s] [m] [h] [d]; unfold combined, get_error; simpl.
    repeat split.
    + now rewrite !combine_errors_assoc.
    + destruct s, m, h, d; reflexivity.
    + rewrite !combine_errors_level. lia.
  - intros dev fs ncs w. unfold metadata_check, bind.
    destruct (metadata_check_body dev fs ncs w) as [[r|e|] w']; reflexivity.
Qed.

(** C3, as the code has it.  A file shorter than one block:
    [metadata_check] asks only for the length and whether the file looks
    like XML, so it opens no block manager.  When [check_for_xml] answers,
    it returns FATAL, having printed that the file looks like XML or else
    that the metadata is too small; when [check_for_xml] throws, the
    exception leaves [metadata_check] and nothing is printed by it.  Either
    way the process exits 1. *)
Theorem short_file_is_FATAL_unless_check_for_xml_throws
  (path : string) (dev : device) (fs : flags) (ncs : option bool) (w : world) (len : Z) :
  dev_get_file_length dev = inr len ->
  len < MD_BLOCK_SIZE ->
  metadata_check dev fs ncs w =
    match dev_check_for_xml dev with
    | inr xml =>
        (Returned (FATAL, ncs),
         {| cerr :=
              cerr w ++
              (if quiet_ fs then []
               else [(0, [Txt (if xml
                               then "This looks like XML.  cache_check only checks the binary metadata format."
                               else "Metadata device/file too small.  Is this binary metadata?")])]);
            calls := calls w ++ [c_get_file_length; c_check_for_xml];
            block0 := block0 w |})
    | inl e =>
        (Thrown e,
         {| cerr := cerr w;
            calls := calls w ++ [c_get_file_length; c_check_for_xml];
            block0 := block0 w |})
    end /\
  fst (check_with_exception_handling path dev fs w) = Returned 1 /\
  exists l : list call,
    calls (snd (check_with_exception_handling path dev fs w)) = calls w ++ l /\
    forall m, ~ In (c_open_bm m) l.
Proof.
  intros Hlen Hshort.
  assert (Hrun : forall ncs0 w0,
    metadata_check dev fs ncs0 w0 =
    match dev_check_for_xml dev with
    | inr xml =>
        (Returned (FATAL, ncs0),
         {| cerr :=
              cerr w0 ++
              (if quiet_ fs then []
               else [(0, [Txt (if xml
                               then "This looks like XML.  cache_check only checks the binary metadata format."
                               else "Metadata device/file too small.  Is this binary metadata?")])]);
            calls := calls w0 ++ [c_get_file_length; c_check_for_xml];
            block0 := block0 w0 |})
    | inl e =>
        (Thrown e,
         {| cerr := cerr w0;
            calls := calls w0 ++ [c_get_file_length; c_check_for_xml];
            block0 := block0 w0 |})
    end).
  { intros ncs0 w0. unfold metadata_check, metadata_check_body, extern, bind, log, ret, throw.
    rewrite Hlen. apply Z.ltb_lt in Hshort. rewrite Hshort.
    destruct (dev_check_for_xml dev) as [e|xml].
    - simpl. now rewrite <- app_assoc.
    - unfold message, write_cerr.
      destruct xml, (quiet_ fs); simpl; rewrite <- ?app_assoc, ?app_nil_r; reflexivity. }
  split; [apply Hrun|].
  rewrite check_with_exception_handling_run, check_run.
  destruct (dev_stat dev) as [errno_text|info].
  - split; [reflexivity|]. exists [c_stat]. split.
    + destruct (quiet_ fs); reflexivity.
    + intros m [H|[]]; discriminate H.
  - destruct (negb (S_ISREG info) && negb (S_ISBLK info)).
    + split; [reflexivity|]. exists [c_stat]. split.
      * destruct (quiet_ fs); reflexivity.
      * intros m [H|[]]; discriminate H.
    + rewrite Hrun. destruct (dev_check_for_xml dev) as [e|xml].
      * split; [reflexivity|].
        exists [c_stat; c_get_file_length; c_check_for_xml]. split.
        -- destruct (quiet_ fs); simpl; now rewrite <- app_assoc.
        -- intros m H. simpl in H.
           destruct H as [H|[H|[H|[]]]]; discriminate H.
      * unfold check_from. rewrite success_FATAL. cbn.
        split; [reflexivity|].
        exists [c_stat; c_get_file_length; c_check_for_xml]. split.
        -- now rewrite <- app_assoc.
        -- intros m H. simpl in H.
           destruct H as [H|[H|[H|[]]]]; discriminate H.
Qed.

(** C3, at the empty file, at a file that starts as XML, and at a short file
    of which [check_for_xml] cannot read a block. *)
Lemma short_file_is_FATAL_unless_check_for_xml_throws_witness :
  metadata_check empty_file flags_default None (boot sb_v2) =
    (Returned (FATAL, None),
     {| cerr := [(0, [Txt "Metadata device/file too small.  Is this binary metadata?"])];
        calls := [c_get_file_length; c_check_for_xml];
        block0 := sb_v2 |}) /\
  fst (check_with_exception_handling "metadata.bin" empty_file flags_default (boot sb_v2)) =
    Returned 1 /\
  cerr (snd (metadata_check xml_file flags_default None (boot sb_v2))) =
    [(0, [Txt "This looks like XML.  cache_check only checks the binary metadata format."])] /\
  fst (metadata_check short_unreadable flags_default None (boot sb_v2)) =
    Thrown "metadata.bin: short read" /\
  fst (check_with_exception_handling "metadata.bin" short_unreadable flags_default
         (boot sb_v2)) = Returned 1.
Proof.
  destruct (@short_file_is_FATAL_unless_check_for_xml_throws
              "metadata.bin" empty_file flags_default None (boot sb_v2) 0) as (R & X & _).
  - reflexivity.
  - unfold MD_BLOCK_SIZE; lia.
  - split; [exact R|]. split; [exact X|].
    destruct (@short_file_is_FATAL_unless_check_for_xml_throws
                "metadata.xml" xml_file flags_default None (boot sb_v2) 23) as (R' & _).
    + reflexivity.
    + unfold MD_BLOCK_SIZE; lia.
    + split; [now rewrite R'|].
      destruct (@short_file_is_FATAL_unless_check_for_xml_throws
                  "metadata.bin" short_unreadable flags_default None (boot sb_v2) 100)
        as (R'' & X'' & _).
      * reflexivity.
      * unfold MD_BLOCK_SIZE; lia.
      * split; [now rewrite R''| exact X''].
Defined.

(** C3 as stated fails: a regular file of 100 bytes of which [check_for_xml]
    throws.  [metadata_check] does not return FATAL, it throws, and prints
    nothing. *)
Lemma short_file_check_for_xml_throws :
  dev_get_file_length short_unreadable = inr 100 /\
  100 < MD_BLOCK_SIZE /\
  metadata_check short_unreadable flags_default None (boot sb_v2) =
    (Thrown "metadata.bin: short read",
     {| cerr := []; calls := [c_get_file_length; c_check_for_xml]; block0 := sb_v2 |}) /\
  ~ (exists ncs w', metadata_check short_unreadable flags_default None (boot sb_v2) =
                      (Returned (FATAL, ncs), w')).
Proof.
  split; [reflexivity|]. split; [reflexivity|]. split; [reflexivity|].
  intros (ncs & w' & H). discriminate H.
Qed.

(** C4.  When [check_superblock] reports corruption or invalidity, the
    superblock reporter is at FATAL and [metadata_check] returns FATAL at
    once: the calls it has made end with [check_superblock], so the
    superblock is not read, no transaction manager is opened and nothing is
    walked; [needs_check_set] is left as it was. *)
Theorem damaged_superblock_ends_the_check
  (dev : device) (fs : flags) (ncs : option bool) (w : world) (len : Z) :
  dev_get_file_length dev = inr len ->
  MD_BLOCK_SIZE <= len ->
  dev_open_bm dev READ_ONLY = None ->
  raised (dev_check_superblock dev (dev_get_nr_blocks dev)) = None ->
  delivered (dev_check_superblock dev (dev_get_nr_blocks dev)) <> [] ->
  exists w' : world,
    metadata_check dev fs ncs w = (Returned (FATAL, ncs), w') /\
    calls w' =
      calls w ++ [c_get_file_length; c_open_bm READ_ONLY; c_get_nr_blocks;
                  c_check_superblock (dev_get_nr_blocks dev)] /\
    block0 w' = block0 w.
Proof.
  intros Hlen Hlong Hopen Hraised Hdamage.
  apply Z.ltb_ge in Hlong.
  assert (Hfatal :
    (get_error (struck (fun _ => FATAL)
       (delivered (dev_check_superblock dev (dev_get_nr_blocks dev))) reporter) == FATAL)
    = true).
  { rewrite struck_FATAL.
    destruct (delivered (dev_check_superblock dev (dev_get_nr_blocks dev)));
      [contradiction | reflexivity]. }
  assert (Hwp : wp (metadata_check_body dev fs ncs)
    (fun o w' =>
       o = Returned (returned_early FATAL, ncs) /\
       extends [c_get_file_length; c_open_bm READ_ONLY; c_get_nr_blocks;
                c_check_superblock (dev_get_nr_blocks dev)] w w') w).
  { unfold_body. repeat (body_step; try congruence). split; [reflexivity | assumption]. }
  unfold wp in Hwp. unfold metadata_check, bind.
  destruct (metadata_check_body dev fs ncs w) as [o w']. simpl in Hwp.
  destruct Hwp as [-> [C B]].
  exists w'. repeat split; assumption.
Qed.

(** C4, at a superblock with a bad checksum. *)
Lemma damaged_superblock_ends_the_check_witness :
  exists w' : world,
    metadata_check bad_checksum flags_default None (boot sb_v2) =
      (Returned (FATAL, None), w') /\
    calls w' = [c_get_file_length; c_open_bm READ_ONLY; c_get_nr_blocks;
                c_check_superblock 16] /\
    block0 w' = sb_v2.
Proof.
  apply (@damaged_superblock_ends_the_check bad_checksum flags_default None (boot sb_v2) 65536).
  - reflexivity.
  - unfold MD_BLOCK_SIZE; lia.
  - reflexivity.
  - reflexivity.
  - simpl; discriminate.
Defined.

Lemma metadata_check_returned (dev : device) (fs : flags) (ncs : option bool)
  (w : world) (err : error_state) (ncs' : option bool) (w' : world) :
  metadata_check dev fs ncs w = (Returned (err, ncs'), w') ->
  exists v : verdict,
    metadata_check_body dev fs ncs w = (Returned (v, ncs'), w') /\ err = combined v.
Proof.
  unfold metadata_check, bind, ret.
  destruct (metadata_check_body dev fs ncs w) as [[[v n]|e|] w1]; try discriminate.
  simpl. intros [= <- <- <-]. exists v. split; reflexivity.
Qed.

Lemma struck_nonempty {D : Type} (ds : list D) (r : reporter_base) :
  ds <> [] -> get_error (struck (fun _ => FATAL) ds r) = FATAL.
Proof.
  intros N. rewrite struck_FATAL. destruct ds; [contradiction | reflexivity].
Qed.

Lemma visit_returns {D : Type} (V : damage_visitor D) (severity : D -> error_state) :
  reports V severity ->
  forall d out r w, fst (visit d out r w) = Returned (mplus_error r (severity d)).
Proof. intros R d out r w. exact (proj1 (R d out r w)). Qed.

(** C5.  Each report of damage to a reporter (missing mappings, an invalid
    mapping, missing hints, missing discard bits) is visited without an
    exception and leaves the reporter at the join of its state with FATAL,
    which is FATAL; a reporter at FATAL makes the combined result FATAL, so
    a run of [metadata_check] that returns after its mapping or hint walk
    has reported damage returns FATAL. *)
Theorem visited_damage_is_FATAL :
  (forall desc keys out r w,
     fst (visit (missing_mappings desc keys) out r w) = Returned (mplus_error r FATAL)) /\
  (forall desc cblock m out r w,
     fst (visit (invalid_mapping desc cblock m) out r w) = Returned (mplus_error r FATAL)) /\
  (forall desc keys out r w,
     fst (visit (missing_hints desc keys) out r w) = Returned (mplus_error r FATAL)) /\
  (forall desc keys out r w,
     fst (visit (missing_bits desc keys) out r w) = Returned (mplus_error r FATAL)) /\
  (forall r,
     get_error (mplus_error r FATAL) = combine_errors (get_error r) FATAL /\
     get_error (mplus_error r FATAL) = FATAL) /\
  (forall s m h d,
     combined (reporters s (mplus_error m FATAL) h d) = FATAL /\
     combined (reporters s m (mplus_error h FATAL) d) = FATAL /\
     combined (reporters s m h (mplus_error d FATAL)) = FATAL) /\
  (forall dev fs ncs w,
     (check_mappings_ fs = true /\
      delivered
        (dev_check_mapping_array dev
           {| ma_root := Metadata.mapping_root (block0 w);
              ma_nr_entries := Metadata.cache_blocks (block0 w) |}
           (Metadata.version (block0 w))) <> []) \/
     (check_hints_ fs = true /\
      Metadata.hint_root (block0 w) <> 0 /\
      delivered
        (dev_hint_array_check dev
           {| ha_width := Metadata.policy_hint_size (block0 w);
              ha_root := Metadata.hint_root (block0 w);
              ha_nr_entries := Metadata.cache_blocks (block0 w) |}) <> []) ->
     match fst (metadata_check dev fs ncs w) with
     | Returned (err, _) => err = FATAL
     | _ => True
     end).
Proof.
  split; [intros; apply (visit_returns mapping_reporter_reports)|].
  split; [intros; apply (visit_returns mapping_reporter_reports)|].
  split; [intros; apply (visit_returns hint_reporter_reports)|].
  split; [intros; apply (visit_returns discard_reporter_reports)|].
  split; [intros r; split; [reflexivity | apply get_error_mplus_FATAL]|].
  split.
  - intros s m h d. unfold combined. rewrite !get_error_mplus_FATAL.
    now rewrite ?combine_errors_FATAL_l, ?combine_errors_FATAL_r.
  - intros dev fs ncs w H.
    destruct (metadata_check dev fs ncs w) as [[[err ncs']|e|] w'] eqn:R; simpl; trivial.
    apply metadata_check_returned in R as (v & R & ->).
    apply metadata_check_body_run in R as (l & _ & _ & P).
    destruct v as [e|a b c d]; [apply P|].
    destruct P as (_ & _ & -> & -> & _). unfold combined.
    destruct H as [[-> N]|(-> & Z & N)].
    + rewrite (struck_nonempty _ N).
      now rewrite combine_errors_FATAL_l, combine_errors_FATAL_r.
    + apply Z.eqb_neq in Z. rewrite Z, (struck_nonempty _ N).
      now rewrite combine_errors_FATAL_l, !combine_errors_FATAL_r.
Qed.

(** C5, at a mapping array whose entry 9 is missing. *)
Lemma visited_damage_is_FATAL_witness :
  check_mappings_ flags_default = true /\
  delivered (dev_check_mapping_array mapping_9_missing
               {| ma_root := 1; ma_nr_entries := 10 |} 2) <> [] /\
  fst (metadata_check mapping_9_missing flags_default None (boot sb_v2)) =
    Returned (FATAL, Some true) /\
  match fst (metadata_check mapping_9_missing flags_default None (boot sb_v2)) with
  | Returned (err, _) => err = FATAL
  | _ => True
  end.
Proof.
  assert (N : delivered (dev_check_mapping_array mapping_9_missing
                           {| ma_root := 1; ma_nr_entries := 10 |} 2) <> [])
    by (simpl; discriminate).
  split; [reflexivity|]. split; [exact N|].
  split; [vm_compute; reflexivity|].
  destruct visited_damage_is_FATAL as (_ & _ & _ & _ & _ & _ & H).
  exact (H mapping_9_missing flags_default None (boot sb_v2)
           (or_introl (conj eq_refl N))).
Defined.

(** ** The exit code *)

Lemma struck_NO_ERROR_or_FATAL {D : Type} (ds : list D) :
  get_error (struck (fun _ => FATAL) ds reporter) = NO_ERROR \/
  get_error (struck (fun _ => FATAL) ds reporter) = FATAL.
Proof. rewrite struck_FATAL. destruct ds; [left | right]; reflexivity. Qed.

(** The reporters of the checker only ever hear FATAL, so [metadata_check]
    never returns NON_FATAL. *)
Lemma metadata_check_NO_ERROR_or_FATAL (dev : device) (fs : flags) (ncs : option bool)
  (w : world) (err : error_state) (ncs' : option bool) (w' : world) :
  metadata_check dev fs ncs w = (Returned (err, ncs'), w') ->
  err = NO_ERROR \/ err = FATAL.
Proof.
  intros R. apply metadata_check_returned in R as (v & R & ->).
  apply metadata_check_body_run in R as (l & _ & _ & P).
  destruct v as [e|a b c d]; [right; apply P|].
  destruct P as (-> & -> & -> & -> & _). unfold combined.
  change (get_error reporter) with NO_ERROR.
  rewrite combine_errors_NO_ERROR_l, combine_errors_NO_ERROR_r.
  assert (J : forall x y, (x = NO_ERROR \/ x = FATAL) -> (y = NO_ERROR \/ y = FATAL) ->
                          combine_errors x y = NO_ERROR \/ combine_errors x y = FATAL)
    by (intros x y [-> | ->] [-> | ->]; simpl; auto).
  apply J.
  - destruct (check_mappings_ fs); [apply struck_NO_ERROR_or_FATAL | now left].
  - destruct (check_hints_ fs); [|now left].
    destruct (_ =? _); [now left | apply struck_NO_ERROR_or_FATAL].
Qed.

(** [check] reads [needs_check_set] only after [metadata_check] has given it
    a value: a success is not FATAL, and every return before the assignment
    is FATAL. *)
Lemma needs_check_set_on_success (dev : device) (fs : flags)
  (w : world) (err : error_state) (ncs : option bool) (w' : world) :
  metadata_check dev fs None w = (Returned (err, ncs), w') ->
  success fs err = true ->
  ncs = Some (Metadata.get_flag (Metadata.flags (block0 w)) Metadata.NEEDS_CHECK).
Proof.
  intros R S. apply metadata_check_returned in R as (v & R & ->).
  apply metadata_check_body_run in R as (l & _ & _ & P).
  destruct v as [e|a b c d]; [|apply P].
  destruct P as [-> _]. simpl in S. now rewrite success_FATAL in S.
Qed.

Lemma exit_code_success (fs : flags) (err : error_state) :
  err <> NON_FATAL -> (exit_code err = 0 <-> success fs err = true).
Proof.
  intros N. unfold exit_code, success.
  destruct (ignore_non_fatal_errors_ fs), err; simpl; split; congruence.
Qed.

Lemma check_from_returns (dev : device) (fs : flags) (err : error_state)
  (ncs : option bool) (w1 : world) (r : Z) (w' : world) :
  check_from dev fs err ncs w1 = (Returned r, w') -> r = exit_code err.
Proof.
  unfold check_from.
  destruct (success fs err && clear_needs_check_on_success_ fs); [|congruence].
  destruct ncs as [[|]|]; [|congruence..].
  destruct (clear_needs_check dev w1) as [[[]|e|] w2]; congruence.
Qed.

(** C1.  The exit code is 0 if the run is a success under the policy of
    [ignore_non_fatal_errors_], and 1 otherwise.  A run that exits either
    had [metadata_check] return an error state [err], and then the code is 0
    when [success fs err] holds and 1 when it does not, or ended in an
    exception caught at the boundary, and then the code is 1.  With
    [ignore_non_fatal_errors_] set NON_FATAL counts as a success.  [check]
    computes the code from [err == NO_ERROR]; the two agree on every run, as
    [metadata_check] returns NO_ERROR or FATAL only. *)
Theorem exit_code_is_0_on_success_and_1_otherwise
  (path : string) (dev : device) (fs : flags) (w : world) (r : Z) (w' : world) :
  check_with_exception_handling path dev fs w = (Returned r, w') ->
  (r = 0 \/ r = 1) /\
  ((exists err ncs w1,
      metadata_check dev fs None (logged c_stat w) = (Returned (err, ncs), w1) /\
      fst (check path dev fs w) = Returned r /\
      (success fs err = true -> r = 0) /\
      (success fs err = false -> r = 1) /\
      r = exit_code err /\
      (err = NO_ERROR \/ err = FATAL))
   \/ (exists e, fst (check path dev fs w) = Thrown e /\ r = 1)) /\
  (ignore_non_fatal_errors_ fs = true -> success fs NON_FATAL = true).
Proof.
  intros H.
  assert (K :
    (exists err ncs w1,
       metadata_check dev fs None (logged c_stat w) = (Returned (err, ncs), w1) /\
       fst (check path dev fs w) = Returned r /\
       (success fs err = true -> r = 0) /\
       (success fs err = false -> r = 1) /\
       r = exit_code err /\
       (err = NO_ERROR \/ err = FATAL))
    \/ (exists e, fst (check path dev fs w) = Thrown e /\ r = 1)).
  { rewrite check_with_exception_handling_run in H.
    destruct (check path dev fs w) as [[r0|e|] w0] eqn:C; try discriminate H.
    - injection H as -> ->. left.
      rewrite check_run in C.
      destruct (dev_stat dev) as [t|info]; [discriminate C|].
      destruct (negb (S_ISREG info) && negb (S_ISBLK info)); [discriminate C|].
      destruct (metadata_check dev fs None (logged c_stat w)) as [[[err ncs]|e|] w1] eqn:R;
        try discriminate C.
      exists err, ncs, w1.
      pose proof (metadata_check_NO_ERROR_or_FATAL _ _ _ _ R) as E.
      apply check_from_returns in C. subst r.
      split; [reflexivity|]. split; [reflexivity|].
      split; [|split; [|split; [reflexivity | exact E]]].
      + intros S. apply (exit_code_success fs); [|exact S].
        destruct E as [-> | ->]; discriminate.
      + intros S. destruct E as [-> | ->]; [|reflexivity].
        now rewrite success_NO_ERROR in S.
    - injection H as <- _. right. exists e. split; reflexivity. }
  split; [|split; [exact K|]].
  - destruct K as [(err & _ & _ & _ & _ & _ & _ & -> & [-> | ->]) | (_ & _ & ->)];
      [left | right | right]; reflexivity.
  - intros I. unfold success. now rewrite I.
Qed.

(** C1, at a healthy device with the default flags, which exits 0, and at a
    device whose superblock has a bad checksum, checked with
    [ignore_non_fatal_errors_] set, which exits 1. *)
Lemma exit_code_is_0_on_success_and_1_otherwise_witness :
  (check_with_exception_handling "metadata.bin" healthy flags_default (boot sb_v2) =
     (Returned 0,
      snd (check_with_exception_handling "metadata.bin" healthy flags_default (boot sb_v2))) /\
   exists err ncs w1,
     metadata_check healthy flags_default None (logged c_stat (boot sb_v2)) =
       (Returned (err, ncs), w1) /\
     success flags_default err = true) /\
  (check_with_exception_handling "metadata.bin" bad_checksum
     (ignoring_non_fatal flags_default) (boot sb_v2) =
     (Returned 1,
      snd (check_with_exception_handling "metadata.bin" bad_checksum
             (ignoring_non_fatal flags_default) (boot sb_v2))) /\
   exists err ncs w1,
     metadata_check bad_checksum (ignoring_non_fatal flags_default) None
       (logged c_stat (boot sb_v2)) =
       (Returned (err, ncs), w1) /\
     success (ignoring_non_fatal flags_default) err = false).
Proof.
  split.
  - assert (H : check_with_exception_handling "metadata.bin" healthy flags_default
                  (boot sb_v2) =
                (Returned 0,
                 snd (check_with_exception_handling "metadata.bin" healthy flags_default
                        (boot sb_v2))))
      by (vm_compute; reflexivity).
    split; [exact H|].
    destruct (exit_code_is_0_on_success_and_1_otherwise _ _ _ _ H) as (_ & [K|K] & _).
    + destruct K as (err & ncs & w1 & R & _ & _ & F & _).
      exists err, ncs, w1. split; [exact R|].
      destruct (success flags_default err); [reflexivity|].
      specialize (F eq_refl). discriminate F.
    + destruct K as (e & _ & K). discriminate K.
  - assert (H : check_with_exception_handling "metadata.bin" bad_checksum
                  (ignoring_non_fatal flags_default) (boot sb_v2) =
                (Returned 1,
                 snd (check_with_exception_handling "metadata.bin" bad_checksum
                        (ignoring_non_fatal flags_default) (boot sb_v2))))
      by (vm_compute; reflexivity).
    split; [exact H|].
    destruct (exit_code_is_0_on_success_and_1_otherwise _ _ _ _ H) as (_ & [K|K] & _).
    + destruct K as (err & ncs & w1 & R & _ & T & _).
      exists err, ncs, w1. split; [exact R|].
      destruct (success (ignoring_non_fatal flags_default) err); [|reflexivity].
      specialize (T eq_refl). discriminate T.
    + destruct K as (e & C & _). vm_compute in C. discriminate C.
Defined.

(** ** Clearing NEEDS_CHECK *)

Lemma read_only_no_read_write_open (l : list call) :
  forallb read_only_call l = true -> ~ In (c_open_bm READ_WRITE) l.
Proof.
  intros F I. rewrite forallb_forall in F. specialize (F _ I). discriminate F.
Qed.

Lemma read_only_no_walk_bitset (l : list call) :
  forallb read_only_call l = true -> forall b, ~ In (c_walk_bitset b) l.
Proof.
  intros F b I. rewrite forallb_forall in F. specialize (F _ I). discriminate F.
Qed.

Lemma clear_needs_check_opens_read_write (dev : device) (w : world) :
  exists l : list call,
    calls (snd (clear_needs_check dev w)) = calls w ++ c_open_bm READ_WRITE :: l.
Proof.
  unfold clear_needs_check, open_bm, extern_, read_superblock, write_superblock,
    bind, log, ret, throw.
  destruct (dev_open_bm dev READ_WRITE); simpl; [now exists []|].
  destruct (dev_read_superblock dev); simpl;
    [exists [c_read_superblock]; now rewrite <- app_assoc|].
  destruct (dev_write_superblock dev); simpl; eexists;
    rewrite <- !app_assoc; reflexivity.
Qed.

Lemma clear_needs_check_run (dev : device) (w : world) :
  dev_open_bm dev READ_WRITE = None ->
  dev_read_superblock dev = None ->
  dev_write_superblock dev = None ->
  let sb' := Metadata.with_flags (block0 w)
               (Metadata.clear_flag (Metadata.flags (block0 w)) Metadata.NEEDS_CHECK) in
  clear_needs_check dev w =
    (Returned tt,
     {| cerr := cerr w;
        calls := calls w ++ [c_open_bm READ_WRITE; c_read_superblock; c_write_superblock sb'];
        block0 := sb' |}).
Proof.
  intros O R W.
  unfold clear_needs_check, open_bm, extern_, read_superblock, write_superblock,
    bind, log, ret, throw.
  rewrite O, R, W. simpl. rewrite <- !app_assoc. reflexivity.
Qed.

(** ** Block 0 on disk *)

Module Disk.

(** Modelled from the spec: the layout of block 0 is declared in
    [caching/superblock.h] and packed and unpacked in
    [caching/superblock.cc], which are not among the sources.  The spec
    gives block 0 as 4096 bytes, little endian: a checksum (4 bytes), a
    magic tag (4), the version (4), the flags word with bit 0 =
    NEEDS_CHECK, the mapping root (8), the hint root (8), the discard root
    (8), the dirty root (8, present iff the version is at least 2), the
    cache-block count (4), the discard-block count (8), the policy-hint
    size (4) and the policy name.  The flags word is taken as 4 bytes, and
    the 8 bytes of the dirty root as always there, holding a root iff the
    version is at least 2.  A byte is a [Z] from 0 to 255. *)
Definition block : Type := list Z.

(** Modelled from the spec: where each field of that layout starts. *)
Definition CHECKSUM_AT : nat := 0.
Definition MAGIC_AT : nat := 4.
Definition VERSION_AT : nat := 8.
Definition FLAGS_AT : nat := 12.
Definition MAPPING_ROOT_AT : nat := 16.
Definition HINT_ROOT_AT : nat := 24.
Definition DISCARD_ROOT_AT : nat := 32.
Definition DIRTY_ROOT_AT : nat := 40.
Definition CACHE_BLOCKS_AT : nat := 48.
Definition DISCARD_NR_BLOCKS_AT : nat := 52.
Definition POLICY_HINT_SIZE_AT : nat := 60.
Definition POLICY_NAME_AT : nat := 64.

Definition byte_ok (x : Z) : bool := (0 <=? x) && (x <? 256).

(** A block of [MD_BLOCK_SIZE] bytes. *)
Definition well_formed (b : block) : bool :=
  (Z.of_nat (List.length b) =? MD_BLOCK_SIZE) && forallb byte_ok b.

(** Modelled from the spec: a little-endian field of [n] bytes, least
    significant byte first. *)
Fixpoint to_le (n : nat) (v : Z) : list Z :=
  match n with
  | O => []
  | S n' => v mod 256 :: to_le n' (v / 256)
  end.

Fixpoint from_le (bs : list Z) : Z :=
  match bs with
  | [] => 0
  | x :: bs' => x + 256 * from_le bs'
  end.

(** The [n] bytes of [b] from [at_] on. *)
Definition window (at_ n : nat) (b : block) : list Z := firstn n (skipn at_ b).

Definition load (at_ n : nat) (b : block) : Z := from_le (window at_ n b).

Definition store (at_ n : nat) (v : Z) (b : block) : block :=
  firstn at_ b ++ to_le n v ++ skipn (at_ + n) b.

(** Modelled from the spec: [superblock_traits::unpack], the fields of
    [struct superblock] read off block 0. *)
Definition unpack (b : block) : Metadata.superblock :=
  let version := load VERSION_AT 4 b in
  {| Metadata.flags := load FLAGS_AT 4 b;
     Metadata.version := version;
     Metadata.mapping_root := load MAPPING_ROOT_AT 8 b;
     Metadata.hint_root := load HINT_ROOT_AT 8 b;
     Metadata.discard_root := load DISCARD_ROOT_AT 8 b;
     Metadata.dirty_root := if 2 <=? version then Some (load DIRTY_ROOT_AT 8 b) else None;
     Metadata.cache_blocks := load CACHE_BLOCKS_AT 4 b;
     Metadata.discard_nr_blocks := load DISCARD_NR_BLOCKS_AT 8 b;
     Metadata.policy_hint_size := load POLICY_HINT_SIZE_AT 4 b |}.

(** Modelled from the spec: [superblock_traits::pack], the fields of
    [struct superblock] written to their places in the buffer of block 0;
    the bytes that no field covers are those of the buffer. *)
Definition pack (sb : Metadata.superblock) (b : block) : block :=
  let b := store VERSION_AT 4 (Metadata.version sb) b in
  let b := store FLAGS_AT 4 (Metadata.flags sb) b in
  let b := store MAPPING_ROOT_AT 8 (Metadata.mapping_root sb) b in
  let b := store HINT_ROOT_AT 8 (Metadata.hint_root sb) b in
  let b := store DISCARD_ROOT_AT 8 (Metadata.discard_root sb) b in
  let b := match Metadata.dirty_root sb with
           | Some root => store DIRTY_ROOT_AT 8 root b
           | None => b
           end in
  let b := store CACHE_BLOCKS_AT 4 (Metadata.cache_blocks sb) b in
  let b := store DISCARD_NR_BLOCKS_AT 8 (Metadata.discard_nr_blocks sb) b in
  store POLICY_HINT_SIZE_AT 4 (Metadata.policy_hint_size sb) b.

(** Modelled from the spec: the validator of the superblock.  [prepare]
    stores the 32-bit checksum of the remainder of the block in its first 4
    bytes, and [check] compares them with it.  The checksum itself is a
    parameter. *)
Definition prepare (checksum : list Z -> Z) (b : block) : block :=
  store CHECKSUM_AT 4 (checksum (skipn MAGIC_AT b)) b.

Definition check (checksum : list Z -> Z) (b : block) : bool :=
  load CHECKSUM_AT 4 b =? checksum (skipn MAGIC_AT b) mod 2 ^ 32.

End Disk.

(** [clear_needs_check] on the bytes of block 0. *)
Module OnDisk.

Section Bytes.

Variable checksum : list Z -> Z.
Variable dev : device.

(** Modelled from the spec: [read_superblock] read-locks block 0 and unpacks
    it; whether it throws is the device's answer. *)
Definition read_superblock (b : Disk.block) : exn + Metadata.superblock :=
  match dev_read_superblock dev with
  | Some e => inl e
  | None => inr (Disk.unpack b)
  end.

(** Modelled from the spec: [write_superblock] takes the superblock lock on
    block 0, packs [sb] into its buffer and commits, the validator preparing
    the block. *)
Definition write_superblock (sb : Metadata.superblock) (b : Disk.block) : exn + Disk.block :=
  match dev_write_superblock dev with
  | Some e => inl e
  | None => inr (Disk.prepare checksum (Disk.pack sb b))
  end.

Definition clear_needs_check (b : Disk.block) : outcome unit * Disk.block :=
  match dev_open_bm dev READ_WRITE with
  | Some e => (Thrown e, b)
  | None =>
      match read_superblock b with
      | inl e => (Thrown e, b)
      | inr sb =>
          let sb := Metadata.with_flags sb
                      (Metadata.clear_flag (Metadata.flags sb) Metadata.NEEDS_CHECK) in
          match write_superblock sb b with
          | inl e => (Thrown e, b)
          | inr b' => (Returned tt, b')
          end
      end
  end.

End Bytes.

End OnDisk.

(** A checksum for the examples, and a block 0 that holds [sb_v2] with a
    magic tag and the policy name [mq]; the rest of it is zero. *)
Definition sum_of_bytes (bs : list Z) : Z := fold_right Z.add 0 bs.

Definition sb_v2_block : Disk.block :=
  Disk.prepare sum_of_bytes
    (Disk.pack sb_v2
       (Disk.store Disk.POLICY_NAME_AT 4 29037
          (Disk.store Disk.MAGIC_AT 4 6142003 (repeat 0 4096)))).

Section DiskLemmas.

Import Disk.

Lemma byte_ok_iff (x : Z) : byte_ok x = true <-> 0 <= x < 256.
Proof. unfold byte_ok. rewrite andb_true_iff, Z.leb_le, Z.ltb_lt. reflexivity. Qed.

Lemma well_formed_iff (b : block) :
  well_formed b = true <-> List.length b = 4096%nat /\ Forall (fun x => 0 <= x < 256) b.
Proof.
  unfold well_formed, MD_BLOCK_SIZE.
  rewrite andb_true_iff, Z.eqb_eq, forallb_forall, Forall_forall.
  split; intros [L F]; (split; [lia|]); intros x I; apply byte_ok_iff; auto.
Qed.

Lemma length_to_le (n : nat) : forall v, List.length (to_le n v) = n.
Proof. induction n; intros v; simpl; [reflexivity | now rewrite IHn]. Qed.

Lemma to_le_bytes (n : nat) : forall v, Forall (fun x => 0 <= x < 256) (to_le n v).
Proof.
  induction n; intros v; simpl; constructor; [|apply IHn].
  apply Z.mod_pos_bound. lia.
Qed.

Lemma to_le_from_le (bs : list Z) :
  Forall (fun x => 0 <= x < 256) bs -> to_le (List.length bs) (from_le bs) = bs.
Proof.
  induction 1 as [|x bs Hx _ IH]; cbn [to_le from_le List.length]; [reflexivity|].
  assert (M : (x + 256 * from_le bs) mod 256 = x) by (Z.div_mod_to_equations; lia).
  assert (D : (x + 256 * from_le bs) / 256 = from_le bs) by (Z.div_mod_to_equations; lia).
  now rewrite M, D, IH.
Qed.

Lemma from_le_to_le (n : nat) :
  forall v, 0 <= v < 256 ^ Z.of_nat n -> from_le (to_le n v) = v.
Proof.
  induction n; intros v R.
  - simpl in *. lia.
  - cbn [to_le from_le]. rewrite IHn.
    + Z.div_mod_to_equations; lia.
    + rewrite Nat2Z.inj_succ, Z.pow_succ_r in R by lia.
      Z.div_mod_to_equations; nia.
Qed.

Lemma from_le_range (bs : list Z) :
  Forall (fun x => 0 <= x < 256) bs -> 0 <= from_le bs < 256 ^ Z.of_nat (List.length bs).
Proof.
  induction 1 as [|x bs Hx _ IH]; [simpl; lia|].
  cbn [from_le List.length]. rewrite Nat2Z.inj_succ, Z.pow_succ_r by lia. nia.
Qed.

Lemma Forall_firstn_skipn (P : Z -> Prop) (n : nat) (l : list Z) :
  Forall P l -> Forall P (firstn n l) /\ Forall P (skipn n l).
Proof. intros F. rewrite <- (firstn_skipn n l) in F. now apply Forall_app in F. Qed.

Lemma window_bytes (at_ n : nat) (b : block) :
  Forall (fun x => 0 <= x < 256) b -> Forall (fun x => 0 <= x < 256) (window at_ n b).
Proof.
  intros F. unfold window.
  apply Forall_firstn_skipn. now apply (Forall_firstn_skipn at_) in F.
Qed.

Lemma length_window (at_ n : nat) (b : block) :
  (at_ + n <= List.length b)%nat -> List.length (window at_ n b) = n.
Proof. intros L. unfold window. rewrite length_firstn, length_skipn. lia. Qed.

Lemma nth_window (at_ n j : nat) (b : block) :
  nth j (window at_ n b) 0 = if (j <? n)%nat then nth (at_ + j) b 0 else 0.
Proof. unfold window. now rewrite nth_firstn, nth_skipn. Qed.

Lemma length_store (at_ n : nat) (v : Z) (b : block) :
  (at_ + n <= List.length b)%nat -> List.length (store at_ n v b) = List.length b.
Proof.
  intros L. unfold store.
  rewrite !length_app, length_firstn, length_to_le, length_skipn. lia.
Qed.

Lemma nth_store (at_ n i : nat) (v : Z) (b : block) :
  (at_ + n <= List.length b)%nat ->
  nth i (store at_ n v b) 0 =
    if ((at_ <=? i) && (i <? at_ + n))%nat
    then nth (i - at_) (to_le n v) 0
    else nth i b 0.
Proof.
  intros L. unfold store.
  assert (F : List.length (firstn at_ b) = at_) by (rewrite length_firstn; lia).
  destruct (Nat.leb_spec at_ i) as [A|A]; cbn [andb].
  - rewrite app_nth2; rewrite F; [|lia].
    destruct (Nat.ltb_spec i (at_ + n)) as [B|B].
    + rewrite app_nth1; [reflexivity | rewrite length_to_le; lia].
    + rewrite app_nth2; rewrite length_to_le; [|lia].
      rewrite nth_skipn. f_equal. lia.
  - rewrite app_nth1 by lia. rewrite nth_firstn.
    destruct (Nat.ltb_spec i at_); [reflexivity | lia].
Qed.

Lemma window_store_same (at_ n : nat) (v : Z) (b : block) :
  (at_ + n <= List.length b)%nat -> window at_ n (store at_ n v b) = to_le n v.
Proof.
  intros L. apply (nth_ext _ _ 0 0).
  - rewrite length_window, length_to_le; [reflexivity | now rewrite length_store].
  - intros j J. rewrite length_window in J by now rewrite length_store.
    rewrite nth_window, nth_store by exact L.
    destruct (Nat.ltb_spec j n); [|lia].
    destruct (Nat.leb_spec at_ (at_ + j)); [|lia].
    destruct (Nat.ltb_spec (at_ + j) (at_ + n)); [|lia].
    cbn [andb]. f_equal. lia.
Qed.

Lemma window_store_other (at_ n at' n' : nat) (v : Z) (b : block) :
  (at' + n' <= List.length b)%nat ->
  (at_ + n <= at' \/ at' + n' <= at_)%nat ->
  window at_ n (store at' n' v b) = window at_ n b.
Proof.
  intros L D. unfold window.
  apply (nth_ext _ _ 0 0).
  - now rewrite !length_firstn, !length_skipn, length_store.
  - intros j _. rewrite !nth_firstn, !nth_skipn.
    destruct (Nat.ltb_spec j n); [|reflexivity].
    rewrite nth_store by exact L.
    destruct (Nat.leb_spec at' (at_ + j)); [|reflexivity].
    destruct (Nat.ltb_spec (at_ + j) (at' + n')); [lia | reflexivity].
Qed.

Lemma store_window (at_ n : nat) (v : Z) (b : block) :
  to_le n v = window at_ n b -> store at_ n v b = b.
Proof.
  intros E. unfold store. rewrite E. unfold window.
  rewrite Nat.add_comm, <- skipn_skipn, firstn_skipn. apply firstn_skipn.
Qed.

(** Writing back what was read leaves the block as it is. *)
Lemma store_load (at_ n : nat) (b b1 : block) :
  Forall (fun x => 0 <= x < 256) b ->
  (at_ + n <= List.length b)%nat ->
  window at_ n b1 = window at_ n b ->
  store at_ n (load at_ n b) b1 = b1.
Proof.
  intros F L W. apply store_window. rewrite W. unfold load.
  rewrite <- (length_window at_ n b L) at 1.
  apply to_le_from_le, window_bytes, F.
Qed.

Lemma well_formed_store (at_ n : nat) (v : Z) (b : block) :
  (at_ + n <= List.length b)%nat ->
  well_formed b = true -> well_formed (store at_ n v b) = true.
Proof.
  intros L. rewrite !well_formed_iff. intros [Len F]. split.
  - now rewrite length_store.
  - unfold store. apply Forall_app. split; [now apply Forall_firstn_skipn|].
    apply Forall_app. split; [apply to_le_bytes | now apply Forall_firstn_skipn].
Qed.

(** Clearing bit 0 of a word. *)
Lemma clearbit_0 (v : Z) : Z.clearbit v 0 = 2 * (v / 2).
Proof.
  apply Z.bits_inj'. intros i Hi. rewrite Z.clearbit_eqb.
  destruct (Z.eqb_spec 0 i) as [<-|N].
  - rewrite andb_false_r. symmetry. apply Z.testbit_even_0.
  - rewrite andb_true_r.
    replace i with (Z.succ (i - 1)) by lia.
    rewrite Z.testbit_even_succ, Z.div2_bits by lia. reflexivity.
Qed.

Lemma clearbit_0_low (v : Z) : Z.clearbit v 0 mod 256 = Z.clearbit (v mod 256) 0.
Proof. rewrite !clearbit_0. Z.div_mod_to_equations. lia. Qed.

Lemma clearbit_0_high (v : Z) : Z.clearbit v 0 / 256 = v / 256.
Proof. rewrite !clearbit_0. Z.div_mod_to_equations. lia. Qed.

Lemma clearbit_0_range (v m : Z) : 0 <= v < m -> 0 <= Z.clearbit v 0 < m.
Proof. intros R. rewrite clearbit_0. Z.div_mod_to_equations. lia. Qed.

(** Of the bytes of a word, clearing bit 0 changes the first only, and of
    the first only bit 0. *)
Lemma to_le_clearbit_0 (n : nat) (v : Z) :
  to_le (S n) (Z.clearbit v 0) = Z.clearbit (v mod 256) 0 :: to_le n (v / 256).
Proof. cbn [to_le]. now rewrite clearbit_0_low, clearbit_0_high. Qed.

Lemma from_le_to_le_mod (n : nat) : forall v, from_le (to_le n v) = v mod 256 ^ Z.of_nat n.
Proof.
  induction n; intros v.
  - simpl. now rewrite Z.mod_1_r.
  - cbn [to_le from_le]. rewrite IHn, Nat2Z.inj_succ, Z.pow_succ_r by lia.
    rewrite Z.rem_mul_r by lia. reflexivity.
Qed.

Ltac offsets :=
  unfold CHECKSUM_AT, MAGIC_AT, VERSION_AT, FLAGS_AT, MAPPING_ROOT_AT, HINT_ROOT_AT,
    DISCARD_ROOT_AT, DIRTY_ROOT_AT, CACHE_BLOCKS_AT, DISCARD_NR_BLOCKS_AT,
    POLICY_HINT_SIZE_AT, POLICY_NAME_AT in *; lia.

(** Packing the superblock read from a block, with NEEDS_CHECK cleared,
    back into that block writes the flags word only. *)
Lemma pack_cleared (b : block) :
  well_formed b = true ->
  pack (Metadata.with_flags (unpack b)
          (Metadata.clear_flag (Metadata.flags (unpack b)) Metadata.NEEDS_CHECK)) b =
    store FLAGS_AT 4 (Z.clearbit (load FLAGS_AT 4 b) 0) b.
Proof.
  intros W. apply well_formed_iff in W as [Len F].
  unfold pack, Metadata.with_flags, unpack, Metadata.clear_flag, Metadata.NEEDS_CHECK.
  cbn [Metadata.flags Metadata.version Metadata.mapping_root Metadata.hint_root
       Metadata.discard_root Metadata.dirty_root Metadata.cache_blocks
       Metadata.discard_nr_blocks Metadata.policy_hint_size].
  rewrite (@store_load VERSION_AT 4 b b F) by (reflexivity || offsets).
  set (b1 := store FLAGS_AT 4 _ b).
  assert (O : forall at_ n,
             (at_ + n <= 4096)%nat -> (at_ + n <= FLAGS_AT \/ FLAGS_AT + 4 <= at_)%nat ->
             store at_ n (load at_ n b) b1 = b1).
  { intros at_ n L D. apply store_load; [exact F | lia |].
    apply window_store_other; [offsets | exact D]. }
  rewrite (O MAPPING_ROOT_AT 8%nat) by offsets.
  rewrite (O HINT_ROOT_AT 8%nat) by offsets.
  rewrite (O DISCARD_ROOT_AT 8%nat) by offsets.
  assert (Dr : match (if 2 <=? load VERSION_AT 4 b
                      then Some (load DIRTY_ROOT_AT 8 b) else None) with
               | Some root => store DIRTY_ROOT_AT 8 root b1
               | None => b1
               end = b1).
  { destruct (2 <=? load VERSION_AT 4 b); [|reflexivity].
    apply (O DIRTY_ROOT_AT 8%nat); offsets. }
  rewrite Dr.
  rewrite (O CACHE_BLOCKS_AT 4%nat) by offsets.
  rewrite (O DISCARD_NR_BLOCKS_AT 8%nat) by offsets.
  apply (O POLICY_HINT_SIZE_AT 4%nat); offsets.
Qed.

(** The bytes of a block once bit 0 of its flags word is cleared. *)
Lemma nth_cleared (b : block) (i : nat) :
  well_formed b = true ->
  nth i (store FLAGS_AT 4 (Z.clearbit (load FLAGS_AT 4 b) 0) b) 0 =
    if (i =? FLAGS_AT)%nat then Z.clearbit (nth i b 0) 0 else nth i b 0.
Proof.
  intros W. apply well_formed_iff in W as [Len F].
  assert (L : (FLAGS_AT + 4 <= List.length b)%nat) by offsets.
  rewrite nth_store by exact L.
  rewrite to_le_clearbit_0.
  assert (E : load FLAGS_AT 4 b mod 256 :: to_le 3 (load FLAGS_AT 4 b / 256) =
              window FLAGS_AT 4 b).
  { change (to_le 4 (load FLAGS_AT 4 b) = window FLAGS_AT 4 b). unfold load.
    rewrite <- (length_window FLAGS_AT 4 b L) at 1.
    apply to_le_from_le, window_bytes, F. }
  destruct (Nat.leb_spec FLAGS_AT i) as [A|A]; cbn [andb].
  - destruct (Nat.ltb_spec i (FLAGS_AT + 4)) as [B|B].
    + assert (N : nth (i - FLAGS_AT) (window FLAGS_AT 4 b) 0 = nth i b 0).
      { rewrite nth_window. destruct (Nat.ltb_spec (i - FLAGS_AT) 4); [|lia].
        f_equal. lia. }
      rewrite <- E in N.
      destruct (Nat.eqb_spec i FLAGS_AT) as [->|D].
      * rewrite Nat.sub_diag in *. cbn [nth] in *. now rewrite N.
      * destruct (i - FLAGS_AT)%nat eqn:K; [lia|]. exact N.
    + destruct (Nat.eqb_spec i FLAGS_AT); [lia | reflexivity].
  - destruct (Nat.eqb_spec i FLAGS_AT); [lia | reflexivity].
Qed.

Lemma load_cleared (b : block) (at_ n : nat) :
  well_formed b = true ->
  (at_ + n <= FLAGS_AT \/ FLAGS_AT + 4 <= at_)%nat ->
  load at_ n (store FLAGS_AT 4 (Z.clearbit (load FLAGS_AT 4 b) 0) b) = load at_ n b.
Proof.
  intros W D. apply well_formed_iff in W as [Len F].
  unfold load at 1 3. rewrite window_store_other; [reflexivity | offsets | exact D].
Qed.

Lemma load_flags_cleared (b : block) :
  well_formed b = true ->
  load FLAGS_AT 4 (store FLAGS_AT 4 (Z.clearbit (load FLAGS_AT 4 b) 0) b) =
    Z.clearbit (load FLAGS_AT 4 b) 0.
Proof.
  intros W. apply well_formed_iff in W as [Len F].
  assert (L : (FLAGS_AT + 4 <= List.length b)%nat) by offsets.
  unfold load at 1. rewrite window_store_same by exact L.
  apply from_le_to_le, clearbit_0_range.
  pose proof (from_le_range (window_bytes FLAGS_AT 4 F)) as R.
  now rewrite (length_window FLAGS_AT 4 b L) in R.
Qed.

(** The superblock read off a block whose flags word has bit 0 cleared. *)
Lemma unpack_cleared (b : block) :
  well_formed b = true ->
  unpack (store FLAGS_AT 4 (Z.clearbit (load FLAGS_AT 4 b) 0) b) =
    Metadata.with_flags (unpack b)
      (Metadata.clear_flag (Metadata.flags (unpack b)) Metadata.NEEDS_CHECK).
Proof.
  intros W. unfold unpack, Metadata.with_flags, Metadata.clear_flag, Metadata.NEEDS_CHECK.
  cbn [Metadata.flags Metadata.version Metadata.mapping_root Metadata.hint_root
       Metadata.discard_root Metadata.dirty_root Metadata.cache_blocks
       Metadata.discard_nr_blocks Metadata.policy_hint_size].
  rewrite (load_flags_cleared b W).
  rewrite !load_cleared by (exact W || offsets).
  reflexivity.
Qed.

(** [prepare] writes the first 4 bytes only, and the block then passes
    [check]. *)
Lemma prepare_skipn (checksum : list Z -> Z) (b : block) :
  skipn MAGIC_AT (prepare checksum b) = skipn MAGIC_AT b.
Proof.
  unfold prepare, store, CHECKSUM_AT, MAGIC_AT.
  cbn [firstn app Nat.add to_le skipn]. reflexivity.
Qed.

Lemma nth_prepare (checksum : list Z -> Z) (b : block) (i : nat) :
  (4 <= List.length b)%nat -> (4 <= i)%nat ->
  nth i (prepare checksum b) 0 = nth i b 0.
Proof.
  intros L I. unfold prepare. rewrite nth_store by offsets.
  unfold CHECKSUM_AT. destruct (Nat.ltb_spec i (0 + 4)); [lia|].
  now rewrite andb_false_r.
Qed.

Lemma check_prepare (checksum : list Z -> Z) (b : block) :
  (4 <= List.length b)%nat -> check checksum (prepare checksum b) = true.
Proof.
  intros L. unfold check. rewrite prepare_skipn. unfold prepare, load.
  rewrite window_store_same by offsets.
  rewrite from_le_to_le_mod. apply Z.eqb_eq. reflexivity.
Qed.

Lemma load_prepare (checksum : list Z -> Z) (b : block) (at_ n : nat) :
  (4 <= List.length b)%nat -> (4 <= at_)%nat ->
  load at_ n (prepare checksum b) = load at_ n b.
Proof.
  intros L A. unfold load, prepare.
  rewrite window_store_other; [reflexivity | offsets | offsets].
Qed.

Lemma unpack_prepare (checksum : list Z -> Z) (b : block) :
  (4 <= List.length b)%nat -> unpack (prepare checksum b) = unpack b.
Proof.
  intros L. unfold unpack. rewrite !load_prepare by (exact L || offsets). reflexivity.
Qed.

End DiskLemmas.

(** C7.  [check] calls [clear_needs_check] exactly when the error state is a
    success under the policy, [clear_needs_check_on_success_] is set and the
    superblock had NEEDS_CHECK set.  [clear_needs_check] opens the block
    manager read-write, reads the superblock and writes it back with
    NEEDS_CHECK cleared: every other flag and every other field is as it
    was read.  On the bytes of block 0, laid out as the spec gives them:
    every byte after the checksum is as it was, but for the first byte of
    the flags word, of which bit 0 alone is cleared; the first 4 bytes hold
    the checksum of the rest, and the block read back is the superblock that
    was written. *)
Theorem needs_check_is_cleared_on_success :
  (forall path dev fs w info err ncs w1,
     dev_stat dev = inr info ->
     S_ISREG info || S_ISBLK info = true ->
     forallb read_only_call (calls w) = true ->
     metadata_check dev fs None (logged c_stat w) = (Returned (err, ncs), w1) ->
     (In (c_open_bm READ_WRITE) (calls (snd (check path dev fs w))) <->
      success fs err = true /\
      clear_needs_check_on_success_ fs = true /\
      Metadata.get_flag (Metadata.flags (block0 w)) Metadata.NEEDS_CHECK = true)) /\
  (forall dev w,
     dev_open_bm dev READ_WRITE = None ->
     dev_read_superblock dev = None ->
     dev_write_superblock dev = None ->
     let sb := block0 w in
     let sb' := Metadata.with_flags sb
                  (Metadata.clear_flag (Metadata.flags sb) Metadata.NEEDS_CHECK) in
     clear_needs_check dev w =
       (Returned tt,
        {| cerr := cerr w;
           calls := calls w ++
                    [c_open_bm READ_WRITE; c_read_superblock; c_write_superblock sb'];
           block0 := sb' |}) /\
     Metadata.get_flag (Metadata.flags sb') Metadata.NEEDS_CHECK = false /\
     (forall f, f <> Metadata.NEEDS_CHECK ->
        Metadata.get_flag (Metadata.flags sb') f = Metadata.get_flag (Metadata.flags sb) f) /\
     Metadata.version sb' = Metadata.version sb /\
     Metadata.mapping_root sb' = Metadata.mapping_root sb /\
     Metadata.hint_root sb' = Metadata.hint_root sb /\
     Metadata.discard_root sb' = Metadata.discard_root sb /\
     Metadata.dirty_root sb' = Metadata.dirty_root sb /\
     Metadata.cache_blocks sb' = Metadata.cache_blocks sb /\
     Metadata.discard_nr_blocks sb' = Metadata.discard_nr_blocks sb /\
     Metadata.policy_hint_size sb' = Metadata.policy_hint_size sb) /\
  (forall checksum dev w b,
     Disk.well_formed b = true ->
     block0 w = Disk.unpack b ->
     dev_open_bm dev READ_WRITE = None ->
     dev_read_superblock dev = None ->
     dev_write_superblock dev = None ->
     exists b' : Disk.block,
       OnDisk.clear_needs_check checksum dev b = (Returned tt, b') /\
       Disk.well_formed b' = true /\
       Disk.unpack b' = block0 (snd (clear_needs_check dev w)) /\
       (forall i, (Disk.MAGIC_AT <= i)%nat -> i <> Disk.FLAGS_AT ->
          nth i b' 0 = nth i b 0) /\
       nth Disk.FLAGS_AT b' 0 = Z.clearbit (nth Disk.FLAGS_AT b 0) 0 /\
       Disk.check checksum b' = true).
Proof.
  split; [|split].
  - intros path dev fs w info err ncs w1 Hstat Hmode Hro R.
    rewrite check_run, Hstat, <- negb_orb, Hmode. cbn [negb]. rewrite R.
    apply metadata_check_returned in R as (v & R & ->).
    apply metadata_check_body_run in R as (l & [C B] & RO & P).
    assert (NI : ~ In (c_open_bm READ_WRITE) (calls w1)).
    { apply read_only_no_read_write_open. rewrite C. simpl.
      now rewrite !forallb_app, Hro, RO. }
    unfold check_from.
    destruct v as [e|a b c d].
    + destruct P as [-> _]. simpl combined. rewrite success_FATAL. simpl.
      split; [contradiction | intros [S _]; discriminate S].
    + destruct P as (_ & _ & _ & _ & -> & _). simpl block0.
      destruct (success fs _), (clear_needs_check_on_success_ fs),
        (Metadata.get_flag _ _); simpl;
        try (split; [contradiction | intros (S1 & S2 & S3); discriminate]).
      destruct (clear_needs_check_opens_read_write dev w1) as [l' O].
      destruct (clear_needs_check dev w1) as [[[]|e|] w2]; simpl in *;
        (split; [auto|]); intros _; rewrite O; apply in_or_app; right; now left.
  - intros dev w O R W sb sb'.
    split; [now apply clear_needs_check_run|].
    split; [apply Z.clearbit_eq|].
    split; [intros f N; apply Z.clearbit_neq; congruence|].
    repeat split.
  - intros checksum dev w b Wf B O R W.
    pose proof Wf as Len. apply well_formed_iff in Len as [Len _].
    set (b1 := Disk.store Disk.FLAGS_AT 4 (Z.clearbit (Disk.load Disk.FLAGS_AT 4 b) 0) b).
    assert (Wf1 : Disk.well_formed b1 = true)
      by (apply well_formed_store; [unfold Disk.FLAGS_AT; lia | exact Wf]).
    assert (L1 : (4 <= List.length b1)%nat)
      by (apply well_formed_iff in Wf1 as [-> _]; lia).
    exists (Disk.prepare checksum b1).
    split; [|split; [|split; [|split; [|split]]]].
    + unfold OnDisk.clear_needs_check, OnDisk.read_superblock, OnDisk.write_superblock.
      rewrite O, R, W. now rewrite (pack_cleared b Wf).
    + apply well_formed_store; [unfold Disk.CHECKSUM_AT; lia | exact Wf1].
    + rewrite (clear_needs_check_run dev w O R W). cbn [snd block0].
      rewrite unpack_prepare by exact L1. unfold b1.
      now rewrite (unpack_cleared b Wf), B.
    + intros i I N. rewrite nth_prepare by (exact L1 || exact I).
      unfold b1. rewrite (nth_cleared b i Wf).
      destruct (Nat.eqb_spec i Disk.FLAGS_AT); [contradiction | reflexivity].
    + rewrite nth_prepare by (exact L1 || (unfold Disk.FLAGS_AT; lia)).
      unfold b1. rewrite (nth_cleared b Disk.FLAGS_AT Wf).
      now rewrite Nat.eqb_refl.
    + now apply check_prepare.
Qed.

(** C7, at a healthy device whose superblock has NEEDS_CHECK set, checked
    with [--clear-needs-check-flag], and at a block 0 that holds that
    superblock. *)
Lemma needs_check_is_cleared_on_success_witness :
  (In (c_open_bm READ_WRITE)
      (calls (snd (check "metadata.bin" healthy (clearing flags_default) (boot sb_v2)))) <->
   success (clearing flags_default) NO_ERROR = true /\
   clear_needs_check_on_success_ (clearing flags_default) = true /\
   Metadata.get_flag (Metadata.flags sb_v2) Metadata.NEEDS_CHECK = true) /\
  Metadata.flags
    (block0 (snd (check "metadata.bin" healthy (clearing flags_default) (boot sb_v2)))) = 0 /\
  fst (clear_needs_check healthy (boot sb_v2)) = Returned tt /\
  Disk.unpack sb_v2_block = sb_v2 /\
  nth Disk.FLAGS_AT sb_v2_block 0 = 1 /\
  exists b' : Disk.block,
    OnDisk.clear_needs_check sum_of_bytes healthy sb_v2_block = (Returned tt, b') /\
    nth Disk.FLAGS_AT b' 0 = 0 /\
    skipn 13 b' = skipn 13 sb_v2_block /\
    Metadata.flags (Disk.unpack b') = 0.
Proof.
  destruct needs_check_is_cleared_on_success as (A & B & C).
  split; [|split; [|split; [|split; [|split]]]].
  - apply (A "metadata.bin" healthy (clearing flags_default) (boot sb_v2) regular NO_ERROR
             (Some true)
             (snd (metadata_check healthy (clearing flags_default) None
                     (logged c_stat (boot sb_v2)))));
      vm_compute; reflexivity.
  - vm_compute; reflexivity.
  - destruct (B healthy (boot sb_v2) eq_refl eq_refl eq_refl) as [R _].
    now rewrite R.
  - vm_compute; reflexivity.
  - vm_compute; reflexivity.
  - destruct (C sum_of_bytes healthy (boot sb_v2) sb_v2_block)
      as (b' & R & _ & U & F & N & _); try (vm_compute; reflexivity).
    exists b'. split; [exact R|]. split; [|split].
    + rewrite N. vm_compute; reflexivity.
    + injection R as <-. vm_compute; reflexivity.
    + rewrite U. vm_compute; reflexivity.
Defined.

(** ** Exceptions *)

Lemma walk_with_raises {D : Type} (V : damage_visitor D) (severity : D -> error_state) :
  reports V severity ->
  forall c wk out r w e,
    raised wk = Some e -> fst (walk_with c wk out r w) = Thrown e.
Proof.
  intros R c wk out r w e Hr.
  change (wp (walk_with c wk out r) (fun o _ => o = Thrown e) w).
  apply (wp_walk_with R). intros w' _. now rewrite Hr.
Qed.

(** C8.  An exception out of [check] (the failed [stat] of [guarded_stat],
    the path that is neither a regular file nor a block device, an
    exception that a walk lets through [metadata_check]) is caught by
    [check_with_exception_handling], which returns 1 and writes [what()] to
    [cerr] unless [quiet_] is set; it lets no exception through. *)
Theorem exceptions_exit_1
  (path : string) (dev : device) (fs : flags) (w : world) (e : exn) (w' : world) :
  check path dev fs w = (Thrown e, w') ->
  check_with_exception_handling path dev fs w =
    (Returned 1, if quiet_ fs then w' else printed (0, [Txt e]) w') /\
  (forall errno_text,
     dev_stat dev = inl errno_text -> e = (path ++ ": " ++ errno_text)%string) /\
  (forall info,
     dev_stat dev = inr info -> S_ISREG info = false -> S_ISBLK info = false ->
     e = (path ++ ": " ++ "Not a block device or regular file")%string) /\
  (forall info,
     dev_stat dev = inr info -> S_ISREG info || S_ISBLK info = true ->
     (exists w1, metadata_check dev fs None (logged c_stat w) = (Thrown e, w1)) \/
     (exists err w1,
        metadata_check dev fs None (logged c_stat w) = (Returned (err, Some true), w1) /\
        fst (clear_needs_check dev w1) = Thrown e)) /\
  (forall c ma_walk out r w0 e0,
     raised ma_walk = Some e0 ->
     fst (walk_with (V := mapping_reporter) c ma_walk out r w0) = Thrown e0) /\
  (forall path' dev' fs' w0 e0,
     fst (check_with_exception_handling path' dev' fs' w0) <> Thrown e0).
Proof.
  intros C.
  split; [rewrite check_with_exception_handling_run, C; reflexivity|].
  rewrite check_run in C.
  split; [intros t S; rewrite S in C; now injection C|].
  split.
  { intros info S R B. rewrite S, R, B in C. simpl in C. now injection C. }
  split.
  { intros info S Hmode. rewrite S, <- negb_orb, Hmode in C. cbn [negb] in C.
    destruct (metadata_check dev fs None (logged c_stat w)) as [[[err ncs]|e1|] w1];
      [|left; exists w1; congruence | discriminate C].
    right. unfold check_from in C.
    destruct (success fs err && clear_needs_check_on_success_ fs); [|discriminate C].
    destruct ncs as [[|]|]; try discriminate C.
    exists err, w1. split; [reflexivity|].
    destruct (clear_needs_check dev w1) as [[[]|e2|] w2]; simpl; congruence. }
  split; [intros; now apply (walk_with_raises mapping_reporter_reports)|].
  intros path' dev' fs' w0 e0. rewrite check_with_exception_handling_run.
  destruct (check path' dev' fs' w0) as [[r|e1|] w1]; simpl; discriminate.
Qed.

(** C8, at a device whose mapping walk ends in a read error, at a path
    that does not exist and at a directory checked quietly. *)
Lemma exceptions_exit_1_witness :
  fst (check "metadata.bin" read_error flags_default (boot sb_v2)) = Thrown "read failed" /\
  check_with_exception_handling "metadata.bin" read_error flags_default (boot sb_v2) =
    (Returned 1,
     printed (0, [Txt "read failed"])
       (snd (check "metadata.bin" read_error flags_default (boot sb_v2)))) /\
  check_with_exception_handling "nowhere" no_such_file flags_default (boot sb_v2) =
    (Returned 1,
     {| cerr := [(0, [Txt "nowhere: No such file or directory"])];
        calls := [c_stat];
        block0 := sb_v2 |}) /\
  check_with_exception_handling "/tmp" a_directory (quiet flags_default) (boot sb_v2) =
    (Returned 1, {| cerr := []; calls := [c_stat]; block0 := sb_v2 |}).
Proof.
  assert (C : check "metadata.bin" read_error flags_default (boot sb_v2) =
              (Thrown "read failed",
               snd (check "metadata.bin" read_error flags_default (boot sb_v2))))
    by (vm_compute; reflexivity).
  assert (C1 : check "nowhere" no_such_file flags_default (boot sb_v2) =
               (Thrown "nowhere: No such file or directory", logged c_stat (boot sb_v2)))
    by reflexivity.
  assert (C2 : check "/tmp" a_directory (quiet flags_default) (boot sb_v2) =
               (Thrown "/tmp: Not a block device or regular file",
                logged c_stat (boot sb_v2)))
    by reflexivity.
  split; [now rewrite C|].
  split; [exact (proj1 (exceptions_exit_1 _ _ _ _ C))|].
  split.
  - exact (proj1 (exceptions_exit_1 _ _ _ _ C1)).
  - exact (proj1 (exceptions_exit_1 _ _ _ _ C2)).
Defined.

(** ** [quiet_] *)

(** C9.  Two runs on the same device, from the same world, with flags that
    differ at most in [quiet_]: [metadata_check] ends the same way with the
    same error state and the same [needs_check_set],
    [check_with_exception_handling] with the same exit code, and both have
    made the same calls and left the same block 0.  Only [cerr] can
    differ. *)
Theorem quiet_changes_only_cerr
  (path : string) (dev : device) (fs fs' : flags) (ncs : option bool) (w : world) :
  same_but_quiet fs fs' ->
  fst (metadata_check dev fs ncs w) = fst (metadata_check dev fs' ncs w) /\
  fst (check_with_exception_handling path dev fs w) =
    fst (check_with_exception_handling path dev fs' w) /\
  calls (snd (check_with_exception_handling path dev fs w)) =
    calls (snd (check_with_exception_handling path dev fs' w)) /\
  block0 (snd (check_with_exception_handling path dev fs w)) =
    block0 (snd (check_with_exception_handling path dev fs' w)).
Proof.
  intros S.
  destruct (alike_metadata_check dev ncs S (same_but_cerr_refl w)) as [M _].
  destruct (alike_check_with_exception_handling path dev S (same_but_cerr_refl w))
    as [X [C B]].
  repeat split; assumption.
Qed.

(** C9, at a device with a damaged superblock, checked aloud and quietly. *)
Lemma quiet_changes_only_cerr_witness :
  same_but_quiet flags_default (quiet flags_default) /\
  fst (metadata_check bad_checksum flags_default None (boot sb_v2)) =
    fst (metadata_check bad_checksum (quiet flags_default) None (boot sb_v2)) /\
  fst (check_with_exception_handling "metadata.bin" bad_checksum flags_default (boot sb_v2)) =
    fst (check_with_exception_handling "metadata.bin" bad_checksum (quiet flags_default)
           (boot sb_v2)) /\
  cerr (snd (check_with_exception_handling "metadata.bin" bad_checksum flags_default
               (boot sb_v2))) <>
    cerr (snd (check_with_exception_handling "metadata.bin" bad_checksum (quiet flags_default)
                 (boot sb_v2))).
Proof.
  assert (S : same_but_quiet flags_default (quiet flags_default))
    by (repeat split).
  split; [exact S|].
  destruct (quiet_changes_only_cerr "metadata.bin" bad_checksum None (boot sb_v2) S)
    as (M & X & _).
  split; [exact M|]. split; [exact X|].
  vm_compute. discriminate.
Defined.

(** ** The bitsets *)

Lemma metadata_check_world (dev : device) (fs : flags) (ncs : option bool) (w : world) :
  snd (metadata_check dev fs ncs w) = snd (metadata_check_body dev fs ncs w).
Proof.
  unfold metadata_check, bind.
  destruct (metadata_check_body dev fs ncs w) as [[r|e|] w']; reflexivity.
Qed.

Lemma metadata_check_ignores_bitset_contents
  (dev : device) (bits : bitset -> walk bitset_item) (fs : flags) (ncs : option bool) :
  metadata_check (with_walk_bitset dev bits) fs ncs = metadata_check dev fs ncs.
Proof. destruct dev; reflexivity. Qed.

(** C10.  [metadata_check] hands the discard reporter to no walker: at the
    last statement it is as it was constructed, at NO_ERROR, and the result
    is the join of the other three; no bitset is walked, whatever the run;
    and the run is the same whatever the bitsets contain. *)
Theorem bitsets_are_never_checked
  (dev : device) (fs : flags) (ncs : option bool) (w : world) :
  (forall sb_rep mapping_rep hint_rep discard_rep ncs' w',
     metadata_check_body dev fs ncs w =
       (Returned (reporters sb_rep mapping_rep hint_rep discard_rep, ncs'), w') ->
     discard_rep = reporter /\
     get_error discard_rep = NO_ERROR /\
     combined (reporters sb_rep mapping_rep hint_rep discard_rep) =
       combine_errors (get_error sb_rep)
         (combine_errors (get_error mapping_rep) (get_error hint_rep))) /\
  (exists l : list call,
     calls (snd (metadata_check dev fs ncs w)) = calls w ++ l /\
     forall b, ~ In (c_walk_bitset b) l) /\
  (forall bits : bitset -> walk bitset_item,
     metadata_check (with_walk_bitset dev bits) fs ncs w = metadata_check dev fs ncs w).
Proof.
  split; [|split].
  - intros a b c d ncs' w' R.
    apply metadata_check_body_run in R as (l & _ & _ & P).
    destruct P as (_ & -> & _).
    split; [reflexivity|]. split; [reflexivity|].
    unfold combined. change (get_error reporter) with NO_ERROR.
    now rewrite combine_errors_NO_ERROR_r.
  - rewrite metadata_check_world.
    destruct (metadata_check_body dev fs ncs w) as [o w'] eqn:R.
    apply metadata_check_body_run in R as (l & [C _] & RO & _).
    exists l. split; [exact C | now apply read_only_no_walk_bitset].
  - intros bits. now rewrite metadata_check_ignores_bitset_contents.
Qed.

(** C10, at a device whose bitsets miss bits. *)
Lemma bitsets_are_never_checked_witness :
  metadata_check_body dirty_bits_missing flags_default None (boot sb_v2) =
    (Returned (reporters reporter reporter reporter reporter, Some true),
     snd (metadata_check_body dirty_bits_missing flags_default None (boot sb_v2))) /\
  get_error reporter = NO_ERROR.
Proof.
  assert (R : metadata_check_body dirty_bits_missing flags_default None (boot sb_v2) =
              (Returned (reporters reporter reporter reporter reporter, Some true),
               snd (metadata_check_body dirty_bits_missing flags_default None (boot sb_v2))))
    by (vm_compute; reflexivity).
  split; [exact R|].
  destruct (bitsets_are_never_checked dirty_bits_missing flags_default None (boot sb_v2))
    as [H _].
  exact (proj1 (proj2 (H _ _ _ _ _ _ R))).
Defined.

(** C6 as stated fails: on a version 2 superblock, with [check_mappings_]
    set, a dirty bitset whose walk would report missing bits (and so FATAL)
    is constructed and never walked, and [metadata_check] returns
    NO_ERROR. *)
Lemma dirty_bitset_damage_goes_unseen :
  check_mappings_ flags_default = true /\
  2 <= Metadata.version sb_v2 /\
  Metadata.dirty_root sb_v2 = Some 4 /\
  fst (walk_bitset dirty_bits_missing {| bs_root := 4; bs_nr_bits := 10 |}
         (nested_output_on_cerr 2) reporter (boot sb_v2)) =
    Returned (mplus_error reporter FATAL) /\
  fst (metadata_check dirty_bits_missing flags_default None (boot sb_v2)) =
    Returned (NO_ERROR, Some true) /\
  In (c_bitset {| bs_root := 4; bs_nr_bits := 10 |})
     (calls (snd (metadata_check dirty_bits_missing flags_default None (boot sb_v2)))) /\
  ~ In (c_walk_bitset {| bs_root := 4; bs_nr_bits := 10 |})
       (calls (snd (metadata_check dirty_bits_missing flags_default None (boot sb_v2)))).
Proof.
  split; [reflexivity|]. split; [simpl; lia|]. split; [reflexivity|].
  split; [vm_compute; reflexivity|]. split; [vm_compute; reflexivity|].
  split.
  - vm_compute. do 7 right. now left.
  - apply read_only_no_walk_bitset. vm_compute. reflexivity.
Qed.

(** C6, as the code has it.  With [check_mappings_] set, a run of
    [metadata_check] that reaches its last statement has called
    [check_mapping_array] on the array of [cache_blocks] entries at
    [mapping_root], and the mapping reporter has heard each report of that
    walk: it is at FATAL exactly when there was one.  On a superblock of
    version 2 or more the dirty bitset has been constructed; no bitset has
    been walked, and what the bitsets contain changes nothing. *)
Theorem mapping_array_walked_dirty_bitset_only_constructed
  (dev : device) (fs : flags) (ncs : option bool) (w : world)
  (sb_rep mapping_rep hint_rep discard_rep : reporter_base)
  (ncs' : option bool) (w' : world) :
  check_mappings_ fs = true ->
  metadata_check_body dev fs ncs w =
    (Returned (reporters sb_rep mapping_rep hint_rep discard_rep, ncs'), w') ->
  let sb := block0 w in
  let ma := {| ma_root := Metadata.mapping_root sb;
               ma_nr_entries := Metadata.cache_blocks sb |} in
  let reports := delivered (dev_check_mapping_array dev ma (Metadata.version sb)) in
  exists l : list call,
    calls w' = calls w ++ l /\
    In (c_check_mapping_array ma (Metadata.version sb)) l /\
    mapping_rep = fold_left (fun r _ => mplus_error r FATAL) reports reporter /\
    (get_error mapping_rep = FATAL <-> reports <> []) /\
    (2 <= Metadata.version sb ->
     exists root,
       Metadata.dirty_root sb = Some root /\
       In (c_bitset {| bs_root := root; bs_nr_bits := Metadata.cache_blocks sb |}) l) /\
    (forall b, ~ In (c_walk_bitset b) l) /\
    (forall bits : bitset -> walk bitset_item,
       metadata_check (with_walk_bitset dev bits) fs ncs w = metadata_check dev fs ncs w).
Proof.
  intros Hcm R sb ma reports.
  apply metadata_check_body_run in R as (l & [C _] & RO & P).
  destruct P as (_ & _ & Hb & _ & _ & Hma & Hdirty & _).
  rewrite Hcm in Hb.
  exists l. split; [exact C|]. split; [exact (Hma Hcm)|]. split; [exact Hb|].
  split; [|split; [|split]].
  - rewrite Hb. fold (struck (fun _ : mapping_array_damage => FATAL) reports reporter).
    rewrite struck_FATAL. subst reports ma sb.
    destruct (delivered _) as [|d0 ds].
    + split; [intros H; discriminate H | intros H; now contradiction H].
    + split; [intros _; discriminate | reflexivity].
  - intros V. apply Hdirty; [exact Hcm | now apply Z.leb_le].
  - now apply read_only_no_walk_bitset.
  - intros bits. now rewrite metadata_check_ignores_bitset_contents.
Qed.

(** C6, at a healthy version 2 device. *)
Lemma mapping_array_walked_dirty_bitset_only_constructed_witness :
  check_mappings_ flags_default = true /\
  exists l : list call,
    calls (snd (metadata_check_body healthy flags_default None (boot sb_v2))) = [] ++ l /\
    In (c_check_mapping_array {| ma_root := 1; ma_nr_entries := 10 |} 2) l /\
    (2 <= 2 -> exists root,
       Some 4 = Some root /\ In (c_bitset {| bs_root := root; bs_nr_bits := 10 |}) l) /\
    (forall b, ~ In (c_walk_bitset b) l).
Proof.
  split; [reflexivity|].
  assert (R : metadata_check_body healthy flags_default None (boot sb_v2) =
              (Returned (reporters reporter reporter reporter reporter, Some true),
               snd (metadata_check_body healthy flags_default None (boot sb_v2))))
    by (vm_compute; reflexivity).
  destruct (mapping_array_walked_dirty_bitset_only_constructed
              healthy flags_default None (boot sb_v2) eq_refl R)
    as (l & C & M & _ & _ & D & W & _).
  exists l. repeat split; assumption.
Defined.

(** * The command: [cache_check_cmd] *)

From Stdlib Require Import Ascii.

(** ** [usage] and [run] *)

Module cache_check_cmd.

(** The code of a character, as [getopt_long] returns it for a short
    option. *)
Definition char (c : ascii) : Z := Z.of_N (N_of_ascii c).

(** [shortopts] and [longopts] of [run]: no option takes an argument, and
    every long option has a null [flag], so [getopt_long] returns its
    [val]. *)
Definition shortopts : string := "qhV".

Definition longopts : list (string * Z) :=
  [("quiet", char "q");
   ("super-block-only", 1);
   ("skip-mappings", 2);
   ("skip-hints", 3);
   ("skip-discards", 4);
   ("clear-needs-check-flag", 5);
   ("help", char "h");
   ("version", char "V")].

(** [cache_check_cmd::usage(out)]: the lines it streams to [out].  [name] is
    what [get_name()] returns; the [command] base class is not among the
    sources. *)
Definition usage (name : string) : list line :=
  [(0, [Txt "Usage: "; Txt name; Txt " [options] {device|file}"]);
   (0, [Txt "Options:"]);
   (0, [Txt "  {-q|--quiet}"]);
   (0, [Txt "  {-h|--help}"]);
   (0, [Txt "  {-V|--version}"]);
   (0, [Txt "  {--clear-needs-check-flag}"]);
   (0, [Txt "  {--super-block-only}"]);
   (0, [Txt "  {--skip-mappings}"]);
   (0, [Txt "  {--skip-hints}"]);
   (0, [Txt "  {--skip-discards}"])].

(** [fs.check_mappings_ = false], [fs.check_hints_ = false] and
    [fs.check_discards_ = false]. *)
Definition skip_mappings (fs : flags) : flags :=
  {| check_mappings_ := false;
     check_hints_ := check_hints_ fs;
     check_discards_ := check_discards_ fs;
     ignore_non_fatal_errors_ := ignore_non_fatal_errors_ fs;
     quiet_ := quiet_ fs;
     clear_needs_check_on_success_ := clear_needs_check_on_success_ fs |}.

Definition skip_hints (fs : flags) : flags :=
  {| check_mappings_ := check_mappings_ fs;
     check_hints_ := false;
     check_discards_ := check_discards_ fs;
     ignore_non_fatal_errors_ := ignore_non_fatal_errors_ fs;
     quiet_ := quiet_ fs;
     clear_needs_check_on_success_ := clear_needs_check_on_success_ fs |}.

Definition skip_discards (fs : flags) : flags :=
  {| check_mappings_ := check_mappings_ fs;
     check_hints_ := check_hints_ fs;
     check_discards_ := false;
     ignore_non_fatal_errors_ := ignore_non_fatal_errors_ fs;
     quiet_ := quiet_ fs;
     clear_needs_check_on_success_ := clear_needs_check_on_success_ fs |}.

(** One call of [getopt_long], which is libc's: the code it returns and
    what it has itself written to [cerr] (its complaint about an option it
    does not know). *)
Definition getopt_answer : Type := (Z * list line)%type.

(** How the [while] loop of [run] ends: [getopt_long] has returned -1 and
    the flags stand, or a [case] has returned from [run]. *)
Inductive scan : Type :=
| options_done (fs : flags) (said : list line)
| run_returns (code : Z) (to_cout to_cerr : list line).

(** The [while] loop of [run] with its [switch], over the answers that the
    successive calls of [getopt_long] give; a list that ends without -1 is
    read as ending with it.  [said] is what has gone to [cerr] so far. *)
Fixpoint getopt_loop (name version : string)
  (answers : list getopt_answer) (fs : flags) (said : list line) : scan :=
  match answers with
  | [] => options_done fs said
  | (c, complaint) :: rest =>
      let said := said ++ complaint in
      if c =? -1 then options_done fs said
      else if c =? 1 then getopt_loop name version rest (skip_hints (skip_mappings fs)) said
      else if c =? 2 then getopt_loop name version rest (skip_mappings fs) said
      else if c =? 3 then getopt_loop name version rest (skip_hints fs) said
      else if c =? 4 then getopt_loop name version rest (skip_discards fs) said
      else if c =? 5 then getopt_loop name version rest (clearing fs) said
      else if c =? char "h" then run_returns 0 (usage name) said
      else if c =? char "q" then getopt_loop name version rest (quiet fs) said
      else if c =? char "V" then run_returns 0 [(0, [Txt version])] said
      else run_returns 1 [] (said ++ usage name)
  end.

(** What a process leaves behind: its exit status, what it wrote to [cout],
    and the world, which holds [cerr]. *)
Record finished : Type := {
  status : outcome Z;
  cout : list line;
  final : world
}.

(** The world once the lines [ls] are on [cerr]. *)
Definition says (ls : list line) (w : world) : world :=
  {| cerr := cerr w ++ ls; calls := calls w; block0 := block0 w |}.

(** [cache_check_cmd::run(argc, argv)].  The command line is taken as
    [getopt_long] reads it: [answers] are its successive answers and
    [operands] is [argv] from [optind] on once it has returned -1, so that
    [argc == optind] is [operands = []] and [argv[optind]] is the first
    operand.  [version] is [THIN_PROVISIONING_TOOLS_VERSION] of [version.h],
    and [dev] the device that the first operand names. *)
Definition run (name version : string)
  (answers : list getopt_answer) (operands : list string)
  (dev : device) (w : world) : finished :=
  match getopt_loop name version answers flags_default [] with
  | run_returns code to_cout to_cerr =>
      {| status := Returned code; cout := to_cout; final := says to_cerr w |}
  | options_done fs said =>
      match operands with
      | [] =>
          {| status := Returned 1;
             cout := [];
             final := says (said ++ (0, [Txt "No input file provided."]) :: usage name) w |}
      | path :: _ =>
          let r := check_with_exception_handling path dev fs (says said w) in
          {| status := fst r; cout := []; final := snd r |}
      end
  end.

(** [cache_check_cmd::cache_check_cmd()]: the name it hands to [command]. *)
Definition command_name : string := "cache_check".

End cache_check_cmd.

Import cache_check_cmd.

From Stdlib Require Import Btauto.

(** ** Notions for the command line *)

(** The codes that [getopt_long] has returned before its first -1. *)
Fixpoint seen (cs : list Z) : list Z :=
  match cs with
  | [] => []
  | c :: cs' => if c =? -1 then [] else c :: seen cs'
  end.

(** The option with code [c] is among those read. *)
Definition given (c : Z) (answers : list getopt_answer) : bool :=
  existsb (Z.eqb c) (seen (map fst answers)).

(** The codes after which the loop of [run] goes on. *)
Definition keeps (c : Z) : bool :=
  (c =? 1) || (c =? 2) || (c =? 3) || (c =? 4) || (c =? 5) || (c =? char "q").

(** ** The options *)

Lemma getopt_loop_flags (name version : string) (answers : list getopt_answer) :
  forall (fs0 : flags) (said0 : list line) (fs : flags) (said : list line),
    getopt_loop name version answers fs0 said0 = options_done fs said ->
    check_mappings_ fs = check_mappings_ fs0 && negb (given 1 answers || given 2 answers) /\
    check_hints_ fs = check_hints_ fs0 && negb (given 1 answers || given 3 answers) /\
    check_discards_ fs = check_discards_ fs0 && negb (given 4 answers) /\
    quiet_ fs = quiet_ fs0 || given (char "q") answers /\
    clear_needs_check_on_success_ fs =
      clear_needs_check_on_success_ fs0 || given 5 answers /\
    ignore_non_fatal_errors_ fs = ignore_non_fatal_errors_ fs0 /\
    forallb keeps (seen (map fst answers)) = true.
Proof.
  unfold given, keeps. change (char "q") with 113. change (char "h") with 104.
  induction answers as [|[c complaint] rest IH]; intros fs0 said0 fs said H.
  - injection H as <- _. simpl. repeat split; btauto.
  - simpl in H. change (char "q") with 113 in H. change (char "h") with 104 in H.
    change (char "V") with 86 in H. cbn [map fst seen].
    destruct (Z.eqb_spec c (-1)) as [->|_];
      [injection H as <- _; simpl; repeat split; btauto|].
    repeat match type of H with
      | (if ?c =? ?k then _ else _) = _ =>
          destruct (Z.eqb_spec c k) as [->|?];
          [try discriminate H;
           apply IH in H; destruct H as (H1 & H2 & H3 & H4 & H5 & H6 & H7);
           cbn [existsb forallb Z.eqb Pos.eqb orb andb negb]; simpl check_mappings_ in *;
           rewrite ?H1, ?H2, ?H3, ?H4, ?H5, ?H6, ?H7; simpl; repeat split; btauto|]
      end.
    discriminate H.
Qed.

Lemma flags_eq (a b : flags) :
  check_mappings_ a = check_mappings_ b ->
  check_hints_ a = check_hints_ b ->
  check_discards_ a = check_discards_ b ->
  ignore_non_fatal_errors_ a = ignore_non_fatal_errors_ b ->
  quiet_ a = quiet_ b ->
  clear_needs_check_on_success_ a = clear_needs_check_on_success_ b ->
  a = b.
Proof. destruct a, b; simpl; intros; subst; reflexivity. Qed.

(** X1.  The flags that [run] hands to the checker are fixed by which
    options were read, not by their order or their number:
    [--super-block-only] is [--skip-mappings] with [--skip-hints] and leaves
    the discard phase on, and no option sets [ignore_non_fatal_errors_]. *)
Theorem options_set_the_flags
  (name version : string) (answers : list getopt_answer) (fs : flags) (said : list line) :
  getopt_loop name version answers flags_default [] = options_done fs said ->
  fs = {| check_mappings_ := negb (given 1 answers || given 2 answers);
          check_hints_ := negb (given 1 answers || given 3 answers);
          check_discards_ := negb (given 4 answers);
          ignore_non_fatal_errors_ := false;
          quiet_ := given (char "q") answers;
          clear_needs_check_on_success_ := given 5 answers |} /\
  forall answers' fs' said',
    getopt_loop name version answers' flags_default [] = options_done fs' said' ->
    (forall c, given c answers' = given c answers) ->
    fs' = fs.
Proof.
  intros H.
  pose proof (getopt_loop_flags _ _ _ _ _ H) as (M & Hi & D & Q & C & I & _).
  simpl in M, Hi, D, Q, C, I.
  split.
  - apply flags_eq; simpl; assumption.
  - intros answers' fs' said' H' Same.
    pose proof (getopt_loop_flags _ _ _ _ _ H') as (M' & Hi' & D' & Q' & C' & I' & _).
    simpl in M', Hi', D', Q', C', I'.
    apply flags_eq; rewrite ?M, ?Hi, ?D, ?Q, ?C, ?I, ?M', ?Hi', ?D', ?Q', ?C', ?I', ?Same;
      reflexivity.
Qed.

(** X1, at [-q --super-block-only] and at the same options the other way
    round. *)
Lemma options_set_the_flags_witness :
  getopt_loop command_name "0.9.0" [(char "q", []); (1, []); (-1, [])] flags_default [] =
    options_done
      {| check_mappings_ := false;
         check_hints_ := false;
         check_discards_ := true;
         ignore_non_fatal_errors_ := false;
         quiet_ := true;
         clear_needs_check_on_success_ := false |} [] /\
  getopt_loop command_name "0.9.0" [(1, []); (char "q", []); (1, [])] flags_default [] =
    getopt_loop command_name "0.9.0" [(char "q", []); (1, []); (-1, [])] flags_default [].
Proof.
  assert (H : getopt_loop command_name "0.9.0" [(char "q", []); (1, []); (-1, [])]
                flags_default [] =
              options_done (skip_hints (skip_mappings (quiet flags_default))) [])
    by reflexivity.
  destruct (options_set_the_flags _ _ _ H) as [E Same].
  split.
  - rewrite H, E. reflexivity.
  - assert (H' : getopt_loop command_name "0.9.0" [(1, []); (char "q", []); (1, [])]
                   flags_default [] =
                 options_done (skip_hints (skip_mappings
                                 (quiet (skip_hints (skip_mappings flags_default))))) [])
      by reflexivity.
    rewrite H, H'. rewrite (Same _ _ _ H'); [reflexivity|].
    intros c. unfold given. simpl.
    destruct (c =? 1), (c =? char "q"); reflexivity.
Defined.

(** ** Leaving [run] before the checker *)

Lemma getopt_loop_app (name version : string) (pre : list getopt_answer) :
  forallb keeps (map fst pre) = true ->
  forall (fs0 : flags) (said0 : list line),
  exists fs1 : flags,
    forall rest,
      getopt_loop name version (pre ++ rest) fs0 said0 =
      getopt_loop name version rest fs1 (said0 ++ List.concat (map snd pre)).
Proof.
  unfold keeps. change (char "q") with 113.
  induction pre as [|[c complaint] pre IH]; intros K fs0 said0.
  - exists fs0. intros rest. simpl. now rewrite app_nil_r.
  - simpl in K. apply andb_true_iff in K as [Kc K].
    cbn [app getopt_loop map snd List.concat].
    change (char "q") with 113. change (char "h") with 104. change (char "V") with 86.
    rewrite app_assoc.
    destruct (Z.eqb_spec c (-1)) as [->|_]; [discriminate Kc|].
    repeat match goal with
      | |- context [if ?c =? ?k then _ else _] =>
          destruct (Z.eqb_spec c k) as [->|?];
          [try discriminate Kc; apply IH; exact K|]
      end.
    discriminate Kc.
Qed.

(** X2.  After options that the loop goes on from, [-h] and [-V] make [run]
    return 0 with the usage text or the version on [cout], any other code
    makes it return 1 with the usage text on [cerr], and so does the end of
    the options with no operand left, after "No input file provided.".  In
    each case the checker is not called (no call is logged, block 0 is as it
    was), whatever the operands, and [-q] before does not silence the
    text. *)
Theorem run_returns_before_the_checker
  (name version : string) (pre : list getopt_answer) (c : Z) (complaint : list line)
  (rest : list getopt_answer) (operands : list string) (dev : device) (w : world) :
  forallb keeps (map fst pre) = true ->
  let said := List.concat (map snd pre) ++ complaint in
  (c = char "h" ->
   run name version (pre ++ (c, complaint) :: rest) operands dev w =
     {| status := Returned 0; cout := usage name; final := says said w |}) /\
  (c = char "V" ->
   run name version (pre ++ (c, complaint) :: rest) operands dev w =
     {| status := Returned 0; cout := [(0, [Txt version])]; final := says said w |}) /\
  (keeps c = false -> c <> -1 -> c <> char "h" -> c <> char "V" ->
   run name version (pre ++ (c, complaint) :: rest) operands dev w =
     {| status := Returned 1; cout := []; final := says (said ++ usage name) w |}) /\
  (c = -1 ->
   run name version (pre ++ (c, complaint) :: rest) [] dev w =
     {| status := Returned 1;
        cout := [];
        final := says (said ++ (0, [Txt "No input file provided."]) :: usage name) w |}).
Proof.
  intros K said.
  destruct (getopt_loop_app name version pre K flags_default []) as [fs1 E].
  unfold run. rewrite E. cbn [getopt_loop app]. fold said.
  repeat split.
  - intros ->. reflexivity.
  - intros ->. reflexivity.
  - unfold keeps. intros Kc N1 Nh Nv.
    apply Z.eqb_neq in N1, Nh, Nv. rewrite N1, Nh, Nv.
    repeat (apply orb_false_iff in Kc as [Kc ?]).
    repeat match goal with H : (c =? _) = false |- _ => rewrite H; clear H end.
    reflexivity.
  - intros ->. reflexivity.
Qed.

(** X2, at [-q -h] with no operand and at an option that [getopt_long] does
    not know. *)
Lemma run_returns_before_the_checker_witness :
  run command_name "0.9.0" [(char "q", []); (char "h", [])] [] healthy (boot sb_v2) =
    {| status := Returned 0; cout := usage command_name; final := boot sb_v2 |} /\
  status (run command_name "0.9.0"
            [(63, [(0, [Txt "cache_check: unrecognized option '--fast'"])])]
            ["metadata.bin"] healthy (boot sb_v2)) = Returned 1.
Proof.
  destruct (run_returns_before_the_checker command_name "0.9.0"
              [(char "q", [])] (char "h") [] [] [] healthy (boot sb_v2) eq_refl)
    as (H & _).
  destruct (run_returns_before_the_checker command_name "0.9.0"
              [] 63 [(0, [Txt "cache_check: unrecognized option '--fast'"])] []
              ["metadata.bin"] healthy (boot sb_v2) eq_refl)
    as (_ & _ & B & _).
  split.
  - exact (H eq_refl).
  - assert (N1 : 63 <> -1) by discriminate.
    assert (Nh : 63 <> char "h") by discriminate.
    assert (Nv : 63 <> char "V") by discriminate.
    exact (f_equal status (B eq_refl N1 Nh Nv)).
Defined.

(** ** The exit status of [run] *)

Lemma getopt_loop_returns (name version : string) (answers : list getopt_answer) :
  forall (fs0 : flags) (said0 : list line) (code : Z) (to_cout to_cerr : list line),
    getopt_loop name version answers fs0 said0 = run_returns code to_cout to_cerr ->
    (code = 0 /\ (given (char "h") answers || given (char "V") answers = true)) \/
    (code = 1 /\ to_cout = []).
Proof.
  unfold given. change (char "h") with 104. change (char "V") with 86.
  induction answers as [|[c complaint] rest IH]; intros fs0 said0 code o e H.
  - discriminate H.
  - simpl in H. change (char "q") with 113 in H. change (char "h") with 104 in H.
    change (char "V") with 86 in H. cbn [map fst seen].
    destruct (Z.eqb_spec c (-1)) as [->|_]; [discriminate H|].
    repeat match type of H with
      | (if ?c =? ?k then _ else _) = _ =>
          destruct (Z.eqb_spec c k) as [->|?];
          [first [ injection H as <- <- _; left; split; [reflexivity|];
                   simpl; now rewrite ?orb_true_r
                 | apply IH in H; destruct H as [[-> G]|[-> G]];
                   [left; split; [reflexivity|]; simpl;
                    apply orb_true_iff in G as [G|G]; rewrite G;
                    now rewrite ?orb_true_r
                   |right; split; [reflexivity | exact G]] ]|]
      end.
    injection H as <- <- _. right. split; reflexivity.
Qed.

Lemma check_with_exception_handling_returns
  (path : string) (dev : device) (fs : flags) (w : world) :
  (forall e, fst (check_with_exception_handling path dev fs w) <> Thrown e) /\
  (forall r, fst (check_with_exception_handling path dev fs w) = Returned r ->
     r = 1 \/
     r = 0 /\
     exists ncs w1,
       metadata_check dev fs None (logged c_stat w) = (Returned (NO_ERROR, ncs), w1)).
Proof.
  rewrite check_with_exception_handling_run.
  destruct (check path dev fs w) as [[r0|e0|] w0] eqn:C; simpl.
  - split; [discriminate|]. intros r [= <-].
    rewrite check_run in C.
    destruct (dev_stat dev) as [t|info]; [discriminate C|].
    destruct (negb (S_ISREG info) && negb (S_ISBLK info)); [discriminate C|].
    destruct (metadata_check dev fs None (logged c_stat w)) as [[[err ncs]|e|] w1] eqn:R;
      try discriminate C.
    apply check_from_returns in C. subst r0.
    destruct err; [right | left; reflexivity ..].
    split; [reflexivity|]. now exists ncs, w1.
  - split; [discriminate|]. intros r [= <-]. now left.
  - split; discriminate.
Qed.

(** X3.  [run] lets no exception out and returns 0 or 1; it returns 0 only
    when [-h] or [-V] was read, or when [metadata_check], run on the first
    operand with the flags the options set, returned NO_ERROR. *)
Theorem run_status
  (name version : string) (answers : list getopt_answer) (operands : list string)
  (dev : device) (w : world) :
  (forall e, status (run name version answers operands dev w) <> Thrown e) /\
  (forall r, status (run name version answers operands dev w) = Returned r ->
     r = 0 \/ r = 1) /\
  (status (run name version answers operands dev w) = Returned 0 ->
   given (char "h") answers = true \/
   given (char "V") answers = true \/
   exists fs said path ncs w1,
     getopt_loop name version answers flags_default [] = options_done fs said /\
     hd_error operands = Some path /\
     metadata_check dev fs None (logged c_stat (says said w)) =
       (Returned (NO_ERROR, ncs), w1)).
Proof.
  unfold run.
  destruct (getopt_loop name version answers flags_default []) as [fs said|code o e] eqn:L.
  - destruct operands as [|path operands]; simpl.
    + repeat split; try discriminate. intros r [= <-]. now right.
    + destruct (check_with_exception_handling_returns path dev fs (says said w)) as [T R].
      split; [exact T|]. split.
      * intros r H. destruct (R r H) as [->|[-> _]]; [now right | now left].
      * intros H. destruct (R 0 H) as [D|[_ (ncs & w1 & M)]]; [discriminate D|].
        right. right. exists fs, said, path, ncs, w1. repeat split. exact M.
  - simpl. apply getopt_loop_returns in L.
    split; [discriminate|]. split.
    + intros r [= <-]. destruct L as [[-> _]|[-> _]]; [now left | now right].
    + intros [= ->]. destruct L as [[_ G]|[D _]]; [|discriminate D].
      apply orb_true_iff in G as [G|G]; [now left | right; now left].
Qed.

(** X3, at a healthy device: [run] returns 0, and [metadata_check] returned
    NO_ERROR. *)
Lemma run_status_witness :
  status (run command_name "0.9.0" [(-1, [])] ["metadata.bin"] healthy (boot sb_v2)) =
    Returned 0 /\
  exists fs said path ncs w1,
    getopt_loop command_name "0.9.0" [(-1, [])] flags_default [] = options_done fs said /\
    hd_error ["metadata.bin"] = Some path /\
    metadata_check healthy fs None (logged c_stat (says said (boot sb_v2))) =
      (Returned (NO_ERROR, ncs), w1).
Proof.
  assert (S : status (run command_name "0.9.0" [(-1, [])] ["metadata.bin"] healthy
                        (boot sb_v2)) = Returned 0)
    by (vm_compute; reflexivity).
  split; [exact S|].
  destruct (run_status command_name "0.9.0" [(-1, [])] ["metadata.bin"] healthy (boot sb_v2))
    as (_ & _ & H).
  destruct (H S) as [G|[G|G]]; [discriminate G | discriminate G | exact G].
Defined.

(** Every option that [longopts] declares has a [case] of its own in the
    [switch] of [run]: its code is one the loop goes on from, or that of
    [-h] or [-V]; so has every character of [shortopts]. *)
Lemma declared_options_are_handled :
  Forall (fun o => keeps (snd o) = true \/ snd o = char "h" \/ snd o = char "V") longopts /\
  Forall (fun c => keeps (char c) = true \/ char c = char "h" \/ char c = char "V")
         (list_ascii_of_string shortopts).
Proof.
  split; repeat (apply Forall_cons; [vm_compute; auto|]); apply Forall_nil.
Qed.

(** * More on [metadata_check] and [check] *)

(** ** Notions *)

(** The collaborator that threw [e]: one of the answers of the device to a
    call that [metadata_check] makes. *)
Inductive thrown_by (dev : device) (e : exn) : Prop :=
| by_get_file_length : dev_get_file_length dev = inl e -> thrown_by dev e
| by_check_for_xml : dev_check_for_xml dev = inl e -> thrown_by dev e
| by_open_bm (m : mode) : dev_open_bm dev m = Some e -> thrown_by dev e
| by_check_superblock (nr : Z) :
    raised (dev_check_superblock dev nr) = Some e -> thrown_by dev e
| by_read_superblock : dev_read_superblock dev = Some e -> thrown_by dev e
| by_open_tm (location : Z) : dev_open_tm dev location = Some e -> thrown_by dev e
| by_check_mapping_array (ma : mapping_array) (v : Z) :
    raised (dev_check_mapping_array dev ma v) = Some e -> thrown_by dev e
| by_hint_array_check (ha : hint_array) :
    raised (dev_hint_array_check dev ha) = Some e -> thrown_by dev e
| by_bitset (b : bitset) : dev_bitset dev b = Some e -> thrown_by dev e.

(** The calls that the flags [fs] and the superblock [sb] license
    [metadata_check] to make on [dev]: a walker only when its flag is set and,
    for the hints, the root is there, and only on the structure that [sb]
    names; a bitset only as the dirty bitset of the mapping phase or as the
    discard bitset. *)
Definition licensed (dev : device) (fs : flags) (sb : Metadata.superblock) (c : call) : bool :=
  match c with
  | c_get_file_length => true
  | c_check_for_xml => true
  | c_open_bm READ_ONLY => true
  | c_get_nr_blocks => true
  | c_check_superblock nr => nr =? dev_get_nr_blocks dev
  | c_read_superblock => true
  | c_open_tm location => location =? SUPERBLOCK_LOCATION
  | c_check_mapping_array ma v =>
      check_mappings_ fs &&
      (ma_root ma =? Metadata.mapping_root sb) &&
      (ma_nr_entries ma =? Metadata.cache_blocks sb) &&
      (v =? Metadata.version sb)
  | c_hint_array_check ha =>
      check_hints_ fs &&
      negb (Metadata.hint_root sb =? 0) &&
      (ha_width ha =? Metadata.policy_hint_size sb) &&
      (ha_root ha =? Metadata.hint_root sb) &&
      (ha_nr_entries ha =? Metadata.cache_blocks sb)
  | c_bitset b =>
      (check_mappings_ fs &&
       (2 <=? Metadata.version sb) &&
       match Metadata.dirty_root sb with
       | Some root => (bs_root b =? root) && (bs_nr_bits b =? Metadata.cache_blocks sb)
       | None => false
       end)
      || (check_discards_ fs &&
          negb (Metadata.discard_root sb =? 0) &&
          (bs_root b =? Metadata.discard_root sb) &&
          (bs_nr_bits b =? Metadata.discard_nr_blocks sb))
  | _ => false
  end.

(** The reports of [check_superblock] on [dev]. *)
Definition superblock_reports (dev : device) : list superblock_damage :=
  delivered (dev_check_superblock dev (dev_get_nr_blocks dev)).

(** An account of a run of [metadata_check_body] from [w]: the calls made
    were licensed; an early return was for a short file or for superblock
    damage; the last statement is reached only on a file of a block or more
    whose superblock drew no report; an exception is a collaborator's; and
    the one undefined step is the dereference of an empty [dirty_root]. *)
Definition body_account (dev : device) (fs : flags) (w : world)
  (o : outcome (verdict * option bool)) (w' : world) : Prop :=
  exists l : list call,
    extends l w w' /\
    forallb (licensed dev fs (block0 w)) l = true /\
    match o with
    | Returned (returned_early _, _) =>
        exists len,
          dev_get_file_length dev = inr len /\
          ((len <? MD_BLOCK_SIZE) = true \/
           (len <? MD_BLOCK_SIZE) = false /\ superblock_reports dev <> [])
    | Returned (reporters _ _ _ _, _) =>
        exists len,
          dev_get_file_length dev = inr len /\
          (len <? MD_BLOCK_SIZE) = false /\
          superblock_reports dev = []
    | Thrown e => thrown_by dev e
    | Undefined =>
        check_mappings_ fs = true /\
        (2 <=? Metadata.version (block0 w)) = true /\
        Metadata.dirty_root (block0 w) = None
    end.

(** ** The account *)

Lemma struck_is_FATAL {D : Type} (ds : list D) :
  (get_error (struck (fun _ => FATAL) ds reporter) == FATAL) = true -> ds <> [].
Proof. rewrite struck_FATAL. destruct ds; [discriminate | discriminate]. Qed.

Lemma struck_is_not_FATAL {D : Type} (ds : list D) :
  (get_error (struck (fun _ => FATAL) ds reporter) == FATAL) = false -> ds = [].
Proof. rewrite struck_FATAL. destruct ds; [reflexivity | discriminate]. Qed.

Ltac licensed_calls :=
  cbn;
  repeat match goal with H : ?t = _ |- context [?t] => rewrite H end;
  rewrite ?Z.eqb_refl; cbn; rewrite ?orb_true_r; reflexivity.

Lemma metadata_check_body_account (dev : device) (fs : flags) (ncs : option bool) (w : world) :
  wp (metadata_check_body dev fs ncs) (body_account dev fs w) w.
Proof.
  unfold body_account, superblock_reports; unfold_body.
  repeat body_step;
    (eexists; split; [eassumption|]); (split; [licensed_calls|]);
    first
      [ solve [econstructor; eassumption]
      | solve [repeat split; reflexivity]
      | solve [eexists; split; [reflexivity|]; left; assumption]
      | solve [eexists; split; [reflexivity|]; right; split;
               [assumption | now apply struck_is_FATAL]]
      | solve [eexists; split; [reflexivity|]; split;
               [assumption | now apply struck_is_not_FATAL]] ].
Qed.

Lemma metadata_check_body_accounted (dev : device) (fs : flags) (ncs : option bool)
  (w : world) (o : outcome (verdict * option bool)) (w' : world) :
  metadata_check_body dev fs ncs w = (o, w') -> body_account dev fs w o w'.
Proof.
  intros R. generalize (metadata_check_body_account dev fs ncs w).
  unfold wp. now rewrite R.
Qed.

(** The device with another mapping array, another hint array, other
    bitsets: what [check_mapping_array], [hint_array::check] and the
    constructor of a bitset answer is replaced. *)
Definition with_check_mapping_array (dev : device)
  (f : mapping_array -> Z -> walk mapping_array_damage) : device :=
  {| dev_stat := dev_stat dev;
     dev_get_file_length := dev_get_file_length dev;
     dev_check_for_xml := dev_check_for_xml dev;
     dev_open_bm := dev_open_bm dev;
     dev_get_nr_blocks := dev_get_nr_blocks dev;
     dev_check_superblock := dev_check_superblock dev;
     dev_read_superblock := dev_read_superblock dev;
     dev_open_tm := dev_open_tm dev;
     dev_check_mapping_array := f;
     dev_hint_array_check := dev_hint_array_check dev;
     dev_bitset := dev_bitset dev;
     dev_walk_bitset := dev_walk_bitset dev;
     dev_write_superblock := dev_write_superblock dev |}.

Definition with_hint_array_check (dev : device)
  (f : hint_array -> walk hint_array_damage) : device :=
  {| dev_stat := dev_stat dev;
     dev_get_file_length := dev_get_file_length dev;
     dev_check_for_xml := dev_check_for_xml dev;
     dev_open_bm := dev_open_bm dev;
     dev_get_nr_blocks := dev_get_nr_blocks dev;
     dev_check_superblock := dev_check_superblock dev;
     dev_read_superblock := dev_read_superblock dev;
     dev_open_tm := dev_open_tm dev;
     dev_check_mapping_array := dev_check_mapping_array dev;
     dev_hint_array_check := f;
     dev_bitset := dev_bitset dev;
     dev_walk_bitset := dev_walk_bitset dev;
     dev_write_superblock := dev_write_superblock dev |}.

Definition with_bitset (dev : device) (f : bitset -> option exn) : device :=
  {| dev_stat := dev_stat dev;
     dev_get_file_length := dev_get_file_length dev;
     dev_check_for_xml := dev_check_for_xml dev;
     dev_open_bm := dev_open_bm dev;
     dev_get_nr_blocks := dev_get_nr_blocks dev;
     dev_check_superblock := dev_check_superblock dev;
     dev_read_superblock := dev_read_superblock dev;
     dev_open_tm := dev_open_tm dev;
     dev_check_mapping_array := dev_check_mapping_array dev;
     dev_hint_array_check := dev_hint_array_check dev;
     dev_bitset := f;
     dev_walk_bitset := dev_walk_bitset dev;
     dev_write_superblock := dev_write_superblock dev |}.

(** ** Skipped phases *)

Lemma metadata_check_licensed (dev : device) (fs : flags) (ncs : option bool) (w : world) :
  exists l : list call,
    calls (snd (metadata_check dev fs ncs w)) = calls w ++ l /\
    forallb (licensed dev fs (block0 w)) l = true.
Proof.
  rewrite metadata_check_world.
  destruct (metadata_check_body dev fs ncs w) as [o w'] eqn:R.
  apply metadata_check_body_accounted in R as (l & [C _] & L & _).
  now exists l.
Qed.

(** X4.  The skip flags are honoured.  Every call [metadata_check] makes is
    licensed by the flags and the superblock: with [check_mappings_] unset
    [check_mapping_array] is not called, with [check_hints_] unset or no hint
    root [hint_array::check] is not called, and no bitset is constructed
    when both the dirty and the discard bitset are out.  A run with a flag
    unset is the same whatever the skipped structure holds. *)
Theorem skipped_phases_are_not_walked
  (dev : device) (fs : flags) (ncs : option bool) (w : world) :
  (exists l : list call,
     calls (snd (metadata_check dev fs ncs w)) = calls w ++ l /\
     forallb (licensed dev fs (block0 w)) l = true /\
     (check_mappings_ fs = false -> forall ma v, ~ In (c_check_mapping_array ma v) l) /\
     (check_hints_ fs = false \/ Metadata.hint_root (block0 w) = 0 ->
      forall ha, ~ In (c_hint_array_check ha) l) /\
     (check_mappings_ fs = false \/ Metadata.version (block0 w) < 2 ->
      check_discards_ fs = false \/ Metadata.discard_root (block0 w) = 0 ->
      forall b, ~ In (c_bitset b) l)) /\
  (check_mappings_ fs = false ->
   forall f, metadata_check (with_check_mapping_array dev f) fs ncs w =
             metadata_check dev fs ncs w) /\
  (check_hints_ fs = false ->
   forall f, metadata_check (with_hint_array_check dev f) fs ncs w =
             metadata_check dev fs ncs w) /\
  (check_mappings_ fs = false -> check_discards_ fs = false ->
   forall f, metadata_check (with_bitset dev f) fs ncs w = metadata_check dev fs ncs w).
Proof.
  split; [|split; [|split]].
  - destruct (metadata_check_licensed dev fs ncs w) as (l & C & L).
    exists l. split; [exact C|]. split; [exact L|].
    rewrite forallb_forall in L.
    split; [|split].
    + intros Hm ma v I. specialize (L _ I). simpl in L. now rewrite Hm in L.
    + intros Hh ha I. specialize (L _ I). simpl in L.
      destruct Hh as [Hh|Hh]; rewrite Hh in L; [discriminate L|].
      now rewrite andb_false_r in L.
    + intros Hm Hd b I. specialize (L _ I). simpl in L.
      apply orb_true_iff in L as [L|L].
      * destruct Hm as [Hm|Hm]; [now rewrite Hm in L|].
        apply Z.leb_gt in Hm. rewrite Hm in L. now rewrite andb_false_r in L.
      * destruct Hd as [Hd|Hd]; rewrite Hd in L; [discriminate L|].
        now rewrite andb_false_r in L.
  - intros Hm f. destruct dev, fs; simpl in Hm; subst. reflexivity.
  - intros Hh f. destruct dev, fs; simpl in Hh; subst. reflexivity.
  - intros Hm Hd f. destruct dev, fs; simpl in Hm, Hd; subst. reflexivity.
Qed.

(** X4, at a mapping array with a missing entry and [--skip-mappings]: the
    damage is not looked at. *)
Lemma skipped_phases_are_not_walked_witness :
  check_mappings_ (skip_mappings flags_default) = false /\
  fst (metadata_check mapping_9_missing (skip_mappings flags_default) None (boot sb_v2)) =
    Returned (NO_ERROR, Some true) /\
  metadata_check mapping_9_missing (skip_mappings flags_default) None (boot sb_v2) =
    metadata_check healthy (skip_mappings flags_default) None (boot sb_v2).
Proof.
  split; [reflexivity|]. split; [vm_compute; reflexivity|].
  destruct (skipped_phases_are_not_walked healthy (skip_mappings flags_default) None
              (boot sb_v2)) as (_ & H & _).
  exact (H eq_refl (dev_check_mapping_array mapping_9_missing)).
Defined.

(** ** Why a run ends as it does *)

(** X5.  A verdict has its cause.  When [metadata_check] returns, it
    returns FATAL exactly when the file is shorter than a block, or
    [check_superblock] reported damage, or the mapping walk was run and
    reported some, or the hint walk was run and reported some; otherwise it
    returns NO_ERROR. *)
Theorem a_verdict_has_its_cause
  (dev : device) (fs : flags) (ncs : option bool) (w : world)
  (err : error_state) (ncs' : option bool) (w' : world) :
  metadata_check dev fs ncs w = (Returned (err, ncs'), w') ->
  let sb := block0 w in
  let cause :=
    (exists len, dev_get_file_length dev = inr len /\ len < MD_BLOCK_SIZE) \/
    delivered (dev_check_superblock dev (dev_get_nr_blocks dev)) <> [] \/
    (check_mappings_ fs = true /\
     delivered (dev_check_mapping_array dev
                  {| ma_root := Metadata.mapping_root sb;
                     ma_nr_entries := Metadata.cache_blocks sb |}
                  (Metadata.version sb)) <> []) \/
    (check_hints_ fs = true /\
     Metadata.hint_root sb <> 0 /\
     delivered (dev_hint_array_check dev
                  {| ha_width := Metadata.policy_hint_size sb;
                     ha_root := Metadata.hint_root sb;
                     ha_nr_entries := Metadata.cache_blocks sb |}) <> []) in
  (err = FATAL <-> cause) /\ (err = NO_ERROR <-> ~ cause).
Proof.
  intros R sb cause.
  pose proof (metadata_check_NO_ERROR_or_FATAL _ _ _ _ R) as E.
  assert (F : err = FATAL <-> cause).
  { apply metadata_check_returned in R as (v & R & ->).
    pose proof (metadata_check_body_run _ _ _ _ R) as (l & _ & _ & P).
    pose proof (metadata_check_body_accounted _ _ _ _ R) as (l' & _ & _ & A).
    unfold superblock_reports in A.
    destruct v as [e|a b c d].
    - destruct P as [-> _]. split; [intros _ | reflexivity].
      destruct A as (len & Hlen & [S|[_ S]]).
      + left. exists len. split; [exact Hlen | now apply Z.ltb_lt].
      + right. now left.
    - destruct A as (len & Hlen & Long & Clean).
      destruct P as (-> & -> & -> & -> & _). unfold combined.
      change (get_error reporter) with NO_ERROR.
      rewrite combine_errors_NO_ERROR_l, combine_errors_NO_ERROR_r.
      fold sb. subst cause. rewrite Clean, Hlen.
      split.
      + intros H. right. right.
        destruct (check_mappings_ fs).
        * rewrite struck_FATAL in H.
          destruct (delivered (dev_check_mapping_array _ _ _)) as [|m ms];
            [|left; split; [reflexivity | discriminate]].
          rewrite combine_errors_NO_ERROR_l in H.
          destruct (check_hints_ fs); [|discriminate H].
          destruct (Z.eqb_spec (Metadata.hint_root sb) 0); [discriminate H|].
          rewrite struck_FATAL in H.
          destruct (delivered (dev_hint_array_check _ _)); [discriminate H|].
          right. repeat split; [assumption | discriminate].
        * rewrite combine_errors_NO_ERROR_l in H.
          destruct (check_hints_ fs); [|discriminate H].
          destruct (Z.eqb_spec (Metadata.hint_root sb) 0); [discriminate H|].
          rewrite struck_FATAL in H.
          destruct (delivered (dev_hint_array_check _ _)); [discriminate H|].
          right. repeat split; [assumption | discriminate].
      + intros [(len' & [= <-] & Short)|[N|[[-> N]|(-> & Z & N)]]].
        * apply Z.ltb_lt in Short. congruence.
        * now contradiction N.
        * rewrite (struck_nonempty _ N). apply combine_errors_FATAL_l.
        * apply Z.eqb_neq in Z. rewrite Z, (struck_nonempty _ N).
          apply combine_errors_FATAL_r. }
  split; [exact F|].
  split.
  - intros -> C. apply F in C. discriminate C.
  - intros N. destruct E as [E|E]; [exact E|]. apply F in E. contradiction.
Qed.

(** X5, at a clean device and at one whose superblock drew a report. *)
Lemma a_verdict_has_its_cause_witness :
  fst (metadata_check healthy flags_default None (boot sb_v2)) =
    Returned (NO_ERROR, Some true) /\
  fst (metadata_check bad_checksum flags_default None (boot sb_v2)) =
    Returned (FATAL, None) /\
  delivered (dev_check_superblock bad_checksum (dev_get_nr_blocks bad_checksum)) <> [].
Proof.
  assert (R : metadata_check bad_checksum flags_default None (boot sb_v2) =
              (Returned (FATAL, None),
               snd (metadata_check bad_checksum flags_default None (boot sb_v2))))
    by (vm_compute; reflexivity).
  split; [vm_compute; reflexivity|]. split; [now rewrite R|].
  destruct (a_verdict_has_its_cause _ _ _ _ R) as [[F _] _].
  destruct (F eq_refl) as [(len & L & S)|[N|[[_ N]|(_ & _ & N)]]].
  - injection L as <-. vm_compute in S. discriminate S.
  - exact N.
  - now contradiction N.
  - now contradiction N.
Defined.

(** ** Undefined behaviour and exceptions *)

Lemma clear_needs_check_is_defined (dev : device) (w : world) :
  fst (clear_needs_check dev w) <> Undefined.
Proof.
  unfold clear_needs_check, open_bm, extern_, read_superblock, write_superblock,
    bind, log, ret, throw.
  destruct (dev_open_bm dev READ_WRITE); simpl; [discriminate|].
  destruct (dev_read_superblock dev); simpl; [discriminate|].
  destruct (dev_write_superblock dev); simpl; discriminate.
Qed.

Lemma metadata_check_outcome (dev : device) (fs : flags) (ncs : option bool) (w : world) :
  match fst (metadata_check dev fs ncs w) with
  | Returned _ => True
  | Thrown e => thrown_by dev e
  | Undefined =>
      check_mappings_ fs = true /\
      (2 <=? Metadata.version (block0 w)) = true /\
      Metadata.dirty_root (block0 w) = None
  end.
Proof.
  unfold metadata_check, bind.
  destruct (metadata_check_body dev fs ncs w) as [o w'] eqn:R.
  apply metadata_check_body_accounted in R as (l & _ & _ & A).
  destruct o as [[v n]|e|]; simpl; [exact I | exact A | exact A].
Qed.

(** X6.  The one step of [check] without defined behaviour is the
    dereference of [dirty_root] in the mapping phase: a run is undefined only
    with [check_mappings_] set on a superblock of version 2 or more whose
    [dirty_root] is empty.  In particular [needs_check_set] is never read
    before [metadata_check] has assigned it. *)
Theorem undefined_only_by_an_empty_dirty_root
  (path : string) (dev : device) (fs : flags) (w : world) :
  fst (check_with_exception_handling path dev fs w) = Undefined ->
  check_mappings_ fs = true /\
  2 <= Metadata.version (block0 w) /\
  Metadata.dirty_root (block0 w) = None /\
  fst (metadata_check dev fs None (logged c_stat w)) = Undefined.
Proof.
  rewrite check_with_exception_handling_run, check_run.
  destruct (dev_stat dev) as [t|info]; [discriminate|].
  destruct (negb (S_ISREG info) && negb (S_ISBLK info)); [discriminate|].
  pose proof (metadata_check_outcome dev fs None (logged c_stat w)) as O.
  destruct (metadata_check dev fs None (logged c_stat w)) as [[[err ncs]|e|] w1] eqn:R;
    simpl in O |- *; [|discriminate|].
  - unfold check_from. intros U. exfalso.
    destruct (success fs err) eqn:S; simpl in U; [|discriminate U].
    destruct (clear_needs_check_on_success_ fs); simpl in U; [|discriminate U].
    rewrite (needs_check_set_on_success _ _ _ R S) in U.
    destruct (Metadata.get_flag _ _); [|discriminate U].
    pose proof (clear_needs_check_is_defined dev w1) as D.
    destruct (clear_needs_check dev w1) as [[[]|e|] w2]; simpl in D;
      [discriminate U | discriminate U | now apply D].
  - intros _. destruct O as (M & V & D).
    repeat split; [exact M | now apply Z.leb_le | exact D].
Qed.

(** X6, at a version 2 superblock that has no dirty root. *)
Lemma undefined_only_by_an_empty_dirty_root_witness :
  fst (check_with_exception_handling "metadata.bin" healthy flags_default
         (boot {| Metadata.flags := 0;
                  Metadata.version := 2;
                  Metadata.mapping_root := 1;
                  Metadata.hint_root := 0;
                  Metadata.discard_root := 0;
                  Metadata.dirty_root := None;
                  Metadata.cache_blocks := 10;
                  Metadata.discard_nr_blocks := 0;
                  Metadata.policy_hint_size := 4 |})) = Undefined /\
  check_mappings_ flags_default = true.
Proof.
  assert (U : fst (check_with_exception_handling "metadata.bin" healthy flags_default
         (boot {| Metadata.flags := 0;
                  Metadata.version := 2;
                  Metadata.mapping_root := 1;
                  Metadata.hint_root := 0;
                  Metadata.discard_root := 0;
                  Metadata.dirty_root := None;
                  Metadata.cache_blocks := 10;
                  Metadata.discard_nr_blocks := 0;
                  Metadata.policy_hint_size := 4 |})) = Undefined)
    by (vm_compute; reflexivity).
  split; [exact U|].
  exact (proj1 (undefined_only_by_an_empty_dirty_root _ _ _ _ U)).
Defined.

(** X7.  [metadata_check] throws nothing of its own: an exception out of it
    is one that a collaborator threw.  So on a device whose collaborators
    throw nothing, with a superblock that has its dirty root from version 2
    on, [metadata_check] returns. *)
Theorem metadata_check_throws_nothing_of_its_own
  (dev : device) (fs : flags) (ncs : option bool) (w : world) :
  (forall e w', metadata_check dev fs ncs w = (Thrown e, w') -> thrown_by dev e) /\
  ((forall e, ~ thrown_by dev e) ->
   (2 <= Metadata.version (block0 w) -> Metadata.dirty_root (block0 w) <> None) ->
   exists err ncs' w', metadata_check dev fs ncs w = (Returned (err, ncs'), w')).
Proof.
  pose proof (metadata_check_outcome dev fs ncs w) as O.
  split.
  - intros e w' R. now rewrite R in O.
  - intros Quiet Sound.
    destruct (metadata_check dev fs ncs w) as [[[err ncs']|e|] w'];
      simpl in O.
    + now exists err, ncs', w'.
    + now apply Quiet in O.
    + destruct O as (_ & V & D). apply Z.leb_le in V. now apply Sound in V.
Qed.

(** X7, at the healthy device. *)
Lemma metadata_check_throws_nothing_of_its_own_witness :
  (forall e, ~ thrown_by healthy e) /\
  exists err ncs' w',
    metadata_check healthy (quiet flags_default) None (boot sb_v2) =
      (Returned (err, ncs'), w').
Proof.
  assert (Q : forall e, ~ thrown_by healthy e)
    by (intros e [H|H|m H|nr H|H|l H|ma v H|ha H|b H]; discriminate H).
  split; [exact Q|].
  apply (proj2 (metadata_check_throws_nothing_of_its_own healthy (quiet flags_default)
                  None (boot sb_v2)) Q).
  intros _. discriminate.
Defined.

(** ** A quiet run *)

(** A computation that leaves [cerr] as it was. *)
Definition hushed {A : Type} (m : M A) : Prop :=
  forall w : world, cerr (snd (m w)) = cerr w.

Section Hushed.

Context {A B : Type}.

Lemma hushed_ret (a : A) : hushed (ret a).
Proof. intros w. reflexivity. Qed.

Lemma hushed_throw (e : exn) : hushed (@throw A e).
Proof. intros w. reflexivity. Qed.

Lemma hushed_undefined : hushed (@undefined A).
Proof. intros w. reflexivity. Qed.

Lemma hushed_bind (m : M A) (k : A -> M B) :
  hushed m -> (forall a, hushed (k a)) -> hushed (bind m k).
Proof.
  intros Hm Hk w. unfold bind. specialize (Hm w).
  destruct (m w) as [[a|e|] w1]; simpl in Hm |- *; [|exact Hm ..].
  now rewrite Hk.
Qed.

Lemma hushed_try_catch (m : M A) (h : exn -> M A) :
  hushed m -> (forall e, hushed (h e)) -> hushed (try_catch m h).
Proof.
  intros Hm Hh w. unfold try_catch. specialize (Hm w).
  destruct (m w) as [[a|e|] w1]; simpl in Hm |- *; [exact Hm | | exact Hm].
  now rewrite Hh.
Qed.

End Hushed.

Lemma hushed_log (c : call) : hushed (log c).
Proof. intros w. reflexivity. Qed.

Lemma hushed_message (o : nested_output) (t : list frag) :
  enabled_ o = false -> hushed (message o t).
Proof. intros D w. unfold message. now rewrite D. Qed.

Lemma hushed_extern {A : Type} (c : call) (answer : exn + A) : hushed (extern c answer).
Proof.
  unfold extern. apply hushed_bind; [apply hushed_log|].
  intros _. destruct answer; [apply hushed_throw | apply hushed_ret].
Qed.

Lemma hushed_extern_ (c : call) (answer : option exn) : hushed (extern_ c answer).
Proof.
  unfold extern_. apply hushed_bind; [apply hushed_log|].
  intros _. destruct answer; [apply hushed_throw | apply hushed_ret].
Qed.

Lemma hushed_read_superblock (dev : device) : hushed (read_superblock dev).
Proof.
  unfold read_superblock. apply hushed_bind; [apply hushed_log|].
  intros _. destruct (dev_read_superblock dev); [apply hushed_throw|].
  intros w. reflexivity.
Qed.

Lemma hushed_write_superblock (dev : device) (sb : Metadata.superblock) :
  hushed (write_superblock dev sb).
Proof.
  unfold write_superblock. apply hushed_bind; [apply hushed_log|].
  intros _. destruct (dev_write_superblock dev); [apply hushed_throw|].
  intros w. reflexivity.
Qed.

Ltac hushed_step :=
  lazymatch goal with
  | |- hushed (bind _ _) => apply hushed_bind; [|intros ?]
  | |- hushed (ret _) => apply hushed_ret
  | |- hushed (throw _) => apply hushed_throw
  | |- hushed undefined => apply hushed_undefined
  | |- hushed (message _ _) => apply hushed_message; assumption || reflexivity
  | |- hushed (log _) => apply hushed_log
  | |- hushed (extern _ _) => apply hushed_extern
  | |- hushed (extern_ _ _) => apply hushed_extern_
  | |- hushed (read_superblock _) => apply hushed_read_superblock
  | |- hushed (write_superblock _ _) => apply hushed_write_superblock
  | |- hushed (if ?b then _ else _) => destruct b
  | |- hushed (match ?x with _ => _ end) => destruct x
  end.

(** A visitor that prints nothing through a disabled [nested_output]. *)
Definition discreet {D : Type} (V : damage_visitor D) : Prop :=
  forall (d : D) (out : nested_output) (r : reporter_base),
    enabled_ out = false -> hushed (visit d out r).

Lemma superblock_reporter_discreet : discreet superblock_reporter.
Proof.
  intros d out r Off. unfold visit, superblock_reporter.
  assert (Off' : enabled_ (push out) = false) by exact Off.
  destruct d; repeat hushed_step.
Qed.

Lemma mapping_reporter_discreet : discreet mapping_reporter.
Proof.
  intros d out r Off. unfold visit, mapping_reporter.
  assert (Off' : enabled_ (push out) = false) by exact Off.
  destruct d; repeat hushed_step.
Qed.

Lemma hint_reporter_discreet : discreet hint_reporter.
Proof.
  intros d out r Off. unfold visit, hint_reporter.
  assert (Off' : enabled_ (push out) = false) by exact Off.
  destruct d; repeat hushed_step.
Qed.

Lemma hushed_walk_with {D : Type} (V : damage_visitor D) :
  discreet V ->
  forall c wk out r, enabled_ out = false -> hushed (walk_with c wk out r).
Proof.
  intros Dv c wk out r Off. unfold walk_with.
  apply hushed_bind; [apply hushed_log|]. intros _.
  apply hushed_bind.
  - generalize r. induction (delivered wk) as [|d ds IH]; intros r0; simpl.
    + apply hushed_ret.
    + apply hushed_bind; [now apply Dv | exact IH].
  - intros r'. destruct (raised wk); [apply hushed_throw | apply hushed_ret].
Qed.

Lemma hushed_metadata_check (dev : device) (fs : flags) (ncs : option bool) :
  quiet_ fs = true -> hushed (metadata_check dev fs ncs).
Proof.
  intros Q. unfold metadata_check.
  apply hushed_bind; [|intros r; apply hushed_ret].
  unfold_body. rewrite Q.
  repeat first
    [ hushed_step
    | apply (hushed_walk_with superblock_reporter_discreet); reflexivity
    | apply (hushed_walk_with mapping_reporter_discreet); reflexivity
    | apply (hushed_walk_with hint_reporter_discreet); reflexivity ].
Qed.

Lemma hushed_clear_needs_check (dev : device) : hushed (clear_needs_check dev).
Proof. unfold clear_needs_check, open_bm. repeat hushed_step. Qed.

Lemma hushed_check_with_exception_handling (path : string) (dev : device) (fs : flags) :
  quiet_ fs = true -> hushed (check_with_exception_handling path dev fs).
Proof.
  intros Q. apply hushed_try_catch.
  - unfold check, guarded_stat.
    apply hushed_bind; [repeat hushed_step|]. intros info.
    destruct (negb (S_ISREG info) && negb (S_ISBLK info)); [apply hushed_throw|].
    apply hushed_bind; [now apply hushed_metadata_check|]. intros r.
    apply hushed_bind; [|intros _; apply hushed_ret].
    destruct (_ && _); [|apply hushed_ret].
    destruct (snd r) as [[|]|];
      [apply hushed_clear_needs_check | apply hushed_ret | apply hushed_undefined].
  - intros e. rewrite Q. simpl. repeat hushed_step.
Qed.

(** X8.  With [quiet_] set the checker prints nothing: whatever the device
    holds and however the run ends (damage reported, an exception caught, a
    superblock rewritten), [cerr] is left exactly as it was. *)
Theorem a_quiet_check_prints_nothing
  (path : string) (dev : device) (fs : flags) (ncs : option bool) (w : world) :
  quiet_ fs = true ->
  cerr (snd (metadata_check dev fs ncs w)) = cerr w /\
  cerr (snd (check_with_exception_handling path dev fs w)) = cerr w.
Proof.
  intros Q. split.
  - now apply hushed_metadata_check.
  - now apply hushed_check_with_exception_handling.
Qed.

(** X8, at a device with a damaged superblock and at a missing file, both
    checked with [-q]. *)
Lemma a_quiet_check_prints_nothing_witness :
  quiet_ (quiet flags_default) = true /\
  cerr (snd (check_with_exception_handling "metadata.bin" bad_checksum
               (quiet flags_default) (boot sb_v2))) = [] /\
  cerr (snd (check_with_exception_handling "nowhere" no_such_file
               (quiet flags_default) (boot sb_v2))) = [].
Proof.
  split; [reflexivity|]. split.
  - exact (proj2 (a_quiet_check_prints_nothing "metadata.bin" bad_checksum
                    (quiet flags_default) None (boot sb_v2) eq_refl)).
  - exact (proj2 (a_quiet_check_prints_nothing "nowhere" no_such_file
                    (quiet flags_default) None (boot sb_v2) eq_refl)).
Defined.

(** ** Block 0 *)

(** The superblock with NEEDS_CHECK cleared. *)
Definition needs_check_cleared (sb : Metadata.superblock) : Metadata.superblock :=
  Metadata.with_flags sb (Metadata.clear_flag (Metadata.flags sb) Metadata.NEEDS_CHECK).

Lemma clear_needs_check_frame (dev : device) (w : world) :
  block0 (snd (clear_needs_check dev w)) = block0 w \/
  fst (clear_needs_check dev w) = Returned tt /\
  block0 (snd (clear_needs_check dev w)) = needs_check_cleared (block0 w).
Proof.
  unfold clear_needs_check, open_bm, extern_, read_superblock, write_superblock,
    bind, log, ret, throw.
  destruct (dev_open_bm dev READ_WRITE); simpl; [now left|].
  destruct (dev_read_superblock dev); simpl; [now left|].
  destruct (dev_write_superblock dev); simpl; [now left|].
  right. split; reflexivity.
Qed.

Lemma metadata_check_keeps_block0 (dev : device) (fs : flags) (ncs : option bool) (w : world) :
  block0 (snd (metadata_check dev fs ncs w)) = block0 w.
Proof.
  rewrite metadata_check_world.
  destruct (metadata_check_body dev fs ncs w) as [o w'] eqn:R.
  now apply metadata_check_body_run in R as (l & [_ B] & _).
Qed.

Lemma check_frame (path : string) (dev : device) (fs : flags) (w : world) :
  block0 (snd (check_with_exception_handling path dev fs w)) = block0 w \/
  block0 (snd (check_with_exception_handling path dev fs w)) =
    needs_check_cleared (block0 w) /\
  fst (check_with_exception_handling path dev fs w) = Returned 0 /\
  clear_needs_check_on_success_ fs = true /\
  Metadata.get_flag (Metadata.flags (block0 w)) Metadata.NEEDS_CHECK = true /\
  fst (metadata_check dev fs None (logged c_stat w)) = Returned (NO_ERROR, Some true).
Proof.
  rewrite check_with_exception_handling_run, check_run.
  destruct (dev_stat dev) as [t|info];
    [left; destruct (quiet_ fs); reflexivity|].
  destruct (negb (S_ISREG info) && negb (S_ISBLK info));
    [left; destruct (quiet_ fs); reflexivity|].
  pose proof (metadata_check_keeps_block0 dev fs None (logged c_stat w)) as B.
  destruct (metadata_check dev fs None (logged c_stat w)) as [[[err ncs]|e|] w1] eqn:R;
    simpl in B; [|left; destruct (quiet_ fs); exact B | left; exact B].
  unfold check_from.
  destruct (success fs err) eqn:S; simpl; [|left; exact B].
  destruct (clear_needs_check_on_success_ fs); simpl; [|left; exact B].
  pose proof (needs_check_set_on_success _ _ _ R S) as N. cbn [block0 logged] in N.
  pose proof (metadata_check_NO_ERROR_or_FATAL _ _ _ _ R) as [->| ->];
    [|now rewrite success_FATAL in S].
  subst ncs.
  destruct (Metadata.get_flag (Metadata.flags (block0 w)) Metadata.NEEDS_CHECK) eqn:G;
    [|left; exact B].
  destruct (clear_needs_check_frame dev w1) as [F|[F1 F2]].
  - left. destruct (clear_needs_check dev w1) as [[[]|e|] w2]; simpl in F |- *;
      try destruct (quiet_ fs); simpl; congruence.
  - right. destruct (clear_needs_check dev w1) as [[[]|e|] w2]; simpl in F1, F2 |- *;
      try discriminate F1.
    rewrite F2, B. repeat split. exact G.
Qed.

(** X9.  A check writes block 0 in one way only.  After any run of
    [check_with_exception_handling], block 0 is as it was, or it is as it
    was with NEEDS_CHECK cleared; the latter only when the exit code is 0,
    [clear_needs_check_on_success_] is set, NEEDS_CHECK was set and
    [metadata_check] returned NO_ERROR.  So a run that exits 1, a run
    without the flag and a run on a superblock without NEEDS_CHECK leave
    block 0 alone. *)
Theorem block_0_changes_only_by_clearing
  (path : string) (dev : device) (fs : flags) (w : world) :
  (block0 (snd (check_with_exception_handling path dev fs w)) = block0 w \/
   block0 (snd (check_with_exception_handling path dev fs w)) =
     needs_check_cleared (block0 w) /\
   fst (check_with_exception_handling path dev fs w) = Returned 0 /\
   clear_needs_check_on_success_ fs = true /\
   Metadata.get_flag (Metadata.flags (block0 w)) Metadata.NEEDS_CHECK = true /\
   fst (metadata_check dev fs None (logged c_stat w)) = Returned (NO_ERROR, Some true)) /\
  (fst (check_with_exception_handling path dev fs w) <> Returned 0 ->
   block0 (snd (check_with_exception_handling path dev fs w)) = block0 w) /\
  (clear_needs_check_on_success_ fs = false ->
   block0 (snd (check_with_exception_handling path dev fs w)) = block0 w) /\
  (Metadata.get_flag (Metadata.flags (block0 w)) Metadata.NEEDS_CHECK = false ->
   block0 (snd (check_with_exception_handling path dev fs w)) = block0 w).
Proof.
  pose proof (check_frame path dev fs w) as F.
  split; [exact F|].
  split; [|split].
  - intros N. destruct F as [F|(_ & X & _)]; [exact F | contradiction].
  - intros N. destruct F as [F|(_ & _ & C & _)]; [exact F | congruence].
  - intros N. destruct F as [F|(_ & _ & _ & G & _)]; [exact F | congruence].
Qed.

(** X10.  [run] rewrites block 0 only when it was asked to: if block 0
    differs after [run], then [--clear-needs-check-flag] was among the
    options, [run] returned 0, and block 0 is what it was with NEEDS_CHECK
    cleared. *)
Theorem run_writes_only_when_asked
  (name version : string) (answers : list getopt_answer) (operands : list string)
  (dev : device) (w : world) :
  block0 (final (run name version answers operands dev w)) <> block0 w ->
  given 5 answers = true /\
  status (run name version answers operands dev w) = Returned 0 /\
  block0 (final (run name version answers operands dev w)) = needs_check_cleared (block0 w).
Proof.
  unfold run.
  destruct (getopt_loop name version answers flags_default []) as [fs said|code o e] eqn:L;
    [|intros N; now contradiction N].
  destruct operands as [|path operands]; [intros N; now contradiction N|].
  cbn [final status].
  intros N.
  destruct (check_frame path dev fs (says said w)) as [F|(F & X & C & _)];
    [now contradiction N|].
  apply getopt_loop_flags in L as (_ & _ & _ & _ & G & _).
  rewrite C in G. simpl in G.
  repeat split; [now symmetry | exact X | exact F].
Qed.

(** X10, at a healthy device with NEEDS_CHECK set, checked with
    [--clear-needs-check-flag]. *)
Lemma run_writes_only_when_asked_witness :
  block0 (final (run command_name "0.9.0" [(5, [])] ["metadata.bin"] healthy (boot sb_v2))) <>
    sb_v2 /\
  given 5 [(5, [])] = true /\
  status (run command_name "0.9.0" [(5, [])] ["metadata.bin"] healthy (boot sb_v2)) =
    Returned 0.
Proof.
  assert (N : block0 (final (run command_name "0.9.0" [(5, [])] ["metadata.bin"] healthy
                               (boot sb_v2))) <> block0 (boot sb_v2))
    by (vm_compute; discriminate).
  split; [exact N|].
  destruct (run_writes_only_when_asked _ _ _ _ _ _ N) as (G & X & _).
  split; assumption.
Defined.

(** ** Two runs *)

(** X11.  NEEDS_CHECK is cleared once.  After a run that has changed block
    0, no later check of that device changes it again, whatever the path
    and the flags: the superblock it finds has NEEDS_CHECK clear. *)
Theorem needs_check_is_cleared_once
  (path path' : string) (dev : device) (fs fs' : flags) (w : world) :
  block0 (snd (check_with_exception_handling path dev fs w)) <> block0 w ->
  Metadata.get_flag
    (Metadata.flags (block0 (snd (check_with_exception_handling path dev fs w))))
    Metadata.NEEDS_CHECK = false /\
  block0 (snd (check_with_exception_handling path' dev fs'
                 (snd (check_with_exception_handling path dev fs w)))) =
    block0 (snd (check_with_exception_handling path dev fs w)).
Proof.
  intros N.
  destruct (check_frame path dev fs w) as [F|(F & _)]; [now contradiction N|].
  assert (G : Metadata.get_flag
                (Metadata.flags (block0 (snd (check_with_exception_handling path dev fs w))))
                Metadata.NEEDS_CHECK = false).
  { rewrite F. exact (Z.clearbit_eq (Metadata.flags (block0 w)) Metadata.NEEDS_CHECK). }
  split; [exact G|].
  destruct (check_frame path' dev fs' (snd (check_with_exception_handling path dev fs w)))
    as [F'|(_ & _ & _ & G' & _)]; [exact F'|].
  rewrite G in G'. discriminate G'.
Qed.

(** X11, at a healthy device with NEEDS_CHECK set, checked twice with
    [--clear-needs-check-flag]. *)
Lemma needs_check_is_cleared_once_witness :
  block0 (snd (check_with_exception_handling "metadata.bin" healthy
                 (clearing flags_default) (boot sb_v2))) <> sb_v2 /\
  block0 (snd (check_with_exception_handling "metadata.bin" healthy (clearing flags_default)
                 (snd (check_with_exception_handling "metadata.bin" healthy
                         (clearing flags_default) (boot sb_v2))))) =
    block0 (snd (check_with_exception_handling "metadata.bin" healthy
                   (clearing flags_default) (boot sb_v2))).
Proof.
  assert (N : block0 (snd (check_with_exception_handling "metadata.bin" healthy
                             (clearing flags_default) (boot sb_v2))) <> block0 (boot sb_v2))
    by (vm_compute; discriminate).
  split; [exact N|].
  exact (proj2 (@needs_check_is_cleared_once "metadata.bin" "metadata.bin" healthy
                  (clearing flags_default) (clearing flags_default) (boot sb_v2) N)).
Defined.

(** ** A quiet command *)

(** X12.  With [-q] among the options, a [run] that reaches the checker adds
    nothing to [cerr] but what [getopt_long] itself wrote while the options
    were read. *)
Theorem a_quiet_run_prints_nothing
  (name version : string) (answers : list getopt_answer) (fs : flags) (said : list line)
  (path : string) (operands : list string) (dev : device) (w : world) :
  given (char "q") answers = true ->
  getopt_loop name version answers flags_default [] = options_done fs said ->
  quiet_ fs = true /\
  cerr (final (run name version answers (path :: operands) dev w)) = cerr w ++ said.
Proof.
  intros G L.
  pose proof (getopt_loop_flags _ _ _ _ _ L) as (_ & _ & _ & Q & _).
  rewrite G in Q. simpl in Q.
  split; [exact Q|].
  unfold run. rewrite L. cbn [final].
  now rewrite (@hushed_check_with_exception_handling path dev fs Q).
Qed.

(** X12, at [-q] on a device with a damaged superblock. *)
Lemma a_quiet_run_prints_nothing_witness :
  given (char "q") [(char "q", []); (-1, [])] = true /\
  cerr (final (run command_name "0.9.0" [(char "q", []); (-1, [])] ["metadata.bin"]
                 bad_checksum (boot sb_v2))) = [] /\
  status (run command_name "0.9.0" [(char "q", []); (-1, [])] ["metadata.bin"]
            bad_checksum (boot sb_v2)) = Returned 1.
Proof.
  split; [reflexivity|]. split; [|vm_compute; reflexivity].
  exact (proj2 (@a_quiet_run_prints_nothing command_name "0.9.0"
                  [(char "q", []); (-1, [])] (quiet flags_default) []
                  "metadata.bin" [] bad_checksum (boot sb_v2) eq_refl eq_refl)).
Defined.
